(** * Temperature 3D map: the forecast pipeline of [streamlit_app.py]

    A shallow embedding of the forecast aggregation and visual-encoding
    pipeline: the batched fetch with its [try]/[except], the timestamp
    index, the snapshot filter and the elevation / colour encoding.

    Python [float]s are IEEE-754 binary64 numbers; they are modelled by the
    specification floats of the standard library ([spec_float] with 53 bits
    of precision), so that comparisons and the elevation arithmetic are the
    ones the interpreter performs. *)

From Stdlib Require Import ZArith QArith Qpower Lia Lqa Floats.SpecFloat.
From stdpp Require Import base option list strings.

(** ** Binary64 numbers *)

Module Float.

Local Open Scope Z_scope.

Definition prec : Z := 53.
Definition emax : Z := 1024.

Definition add : spec_float -> spec_float -> spec_float := SFadd prec emax.
Definition mul : spec_float -> spec_float -> spec_float := SFmul prec emax.
Definition div : spec_float -> spec_float -> spec_float := SFdiv prec emax.
Definition ltb : spec_float -> spec_float -> bool := SFltb.

(** Conversion of a Python [int] literal (exact for the small literals of
    the program). *)
Definition of_int (z : Z) : spec_float := binary_normalize prec emax z 0 false.

(** A decimal literal [n / d] (such as [43.0618 = 430618 / 10000]) denotes
    the binary64 number nearest to it; numerator and denominator are
    exactly representable, so the correctly rounded quotient is that number. *)
Definition of_decimal (n : Z) (d : Z) : spec_float := div (of_int n) (of_int d).

Definition valid (x : spec_float) : bool := valid_binary prec emax x.

Definition is_finite (x : spec_float) : bool :=
  match x with
  | S754_zero _ | S754_finite _ _ _ => true
  | S754_infinity _ | S754_nan => false
  end.

(** The rational number a finite float stands for. *)
Definition to_Q (x : spec_float) : Q :=
  match x with
  | S754_finite s m e =>
      (inject_Z (if s then Z.neg m else Z.pos m) * Qpower 2 e)%Q
  | _ => 0%Q
  end.

(** The same value scaled by [2^1074]: an integer for every valid float,
    since no valid exponent is below [-1074]. *)
Definition scaled (x : spec_float) : Z :=
  match x with
  | S754_finite s m e => (if s then Z.neg m else Z.pos m) * 2 ^ (e + 1074)
  | _ => 0
  end.

End Float.

Abbreviation float := spec_float (only parsing).

(** ** Decoded JSON values and the Python operations applied to them *)

(** What [response.json()] returns.  A [JObj] is the decoded [dict]: its keys
    are pairwise distinct and [dict_get] finds the entry of a key.  Numbers
    are binary64 (the service sends decimals). *)
#[warnings="-register-all"]
Inductive json :=
| JNull
| JBool (b : bool)
| JNum (x : float)
| JStr (s : string)
| JArr (xs : list json)
| JObj (kvs : list (string * json)).

(** The exceptions the body of the [try] can raise; all of them derive from
    [Exception]. *)
Inductive exn :=
| RequestException (cause : string)  (* [requests.get]: no response *)
| HTTPError (status : Z)             (* [raise_for_status] *)
| JSONDecodeError                    (* [response.json()] *)
| KeyError (key : string)            (* missing dictionary key *)
| TypeError (culprit : json)         (* value not subscriptable / not iterable *)
| IndexError                         (* list index out of range *)
| ValueError.                        (* [list.index]: value not in list *)

Inductive result (A : Type) :=
| Ok (a : A)
| Raise (e : exn).
Arguments Ok {A} a.
Arguments Raise {A} e.

#[global] Instance result_ret : MRet result := fun A a => Ok a.
#[global] Instance result_bind : MBind result := fun A B f m =>
  match m with
  | Ok a => f a
  | Raise e => Raise e
  end.

Fixpoint dict_get (key : string) (kvs : list (string * json)) : option json :=
  match kvs with
  | [] => None
  | (k, v) :: rest => if String.eqb k key then Some v else dict_get key rest
  end.

(** [v[key]] for a string key. *)
Definition getitem (v : json) (key : string) : result json :=
  match v with
  | JObj kvs =>
      match dict_get key kvs with
      | Some x => Ok x
      | None => Raise (KeyError key)
      end
  | _ => Raise (TypeError v)
  end.

Fixpoint chars (s : string) : list string :=
  match s with
  | EmptyString => []
  | String c rest => String c EmptyString :: chars rest
  end.

(** [iter(v)], as [zip] applies it to each argument: lists yield their
    items, strings their characters, dictionaries their keys; nothing else
    is iterable. *)
Definition iter (v : json) : result (list json) :=
  match v with
  | JArr xs => Ok xs
  | JStr s => Ok (JStr <$> chars s)
  | JObj kvs => Ok ((fun kv => JStr kv.1) <$> kvs)
  | _ => Raise (TypeError v)
  end.

(** [lst[i]] for an index produced by [enumerate]. *)
Definition list_getitem {A} (lst : list A) (i : nat) : result A :=
  match lst !! i with
  | Some x => Ok x
  | None => Raise IndexError
  end.

(** ** The point catalogue *)

Record coords := { c_lat : float; c_lon : float }.

Definition cities : list (string * coords) :=
  [ ("Sapporo",   {| c_lat := Float.of_decimal 430618 10000; c_lon := Float.of_decimal 1413545 10000 |});
    ("Aomori",    {| c_lat := Float.of_decimal 408244 10000; c_lon := Float.of_decimal 1407400 10000 |});
    ("Sendai",    {| c_lat := Float.of_decimal 382682 10000; c_lon := Float.of_decimal 1408694 10000 |});
    ("Niigata",   {| c_lat := Float.of_decimal 379022 10000; c_lon := Float.of_decimal 1390236 10000 |});
    ("Tokyo",     {| c_lat := Float.of_decimal 356895 10000; c_lon := Float.of_decimal 1396917 10000 |});
    ("Kanazawa",  {| c_lat := Float.of_decimal 365613 10000; c_lon := Float.of_decimal 1366562 10000 |});
    ("Nagoya",    {| c_lat := Float.of_decimal 351815 10000; c_lon := Float.of_decimal 1369066 10000 |});
    ("Osaka",     {| c_lat := Float.of_decimal 346937 10000; c_lon := Float.of_decimal 1355023 10000 |});
    ("Hiroshima", {| c_lat := Float.of_decimal 343853 10000; c_lon := Float.of_decimal 1324553 10000 |});
    ("Kochi",     {| c_lat := Float.of_decimal 335588 10000; c_lon := Float.of_decimal 1335312 10000 |});
    ("Fukuoka",   {| c_lat := Float.of_decimal 335904 10000; c_lon := Float.of_decimal 1304017 10000 |});
    ("Kagoshima", {| c_lat := Float.of_decimal 315600 10000; c_lon := Float.of_decimal 1305580 10000 |});
    ("Naha",      {| c_lat := Float.of_decimal 262124 10000; c_lon := Float.of_decimal 1276809 10000 |}) ].

Definition lats : list float := (fun kv => c_lat kv.2) <$> cities.
Definition lons : list float := (fun kv => c_lon kv.2) <$> cities.
Definition city_names : list string := fst <$> cities.

(** ** Records and frames *)

(** One row: the dictionary appended to [all_records].  The fetch copies
    the timestamp and temperature cells as they come ([T = V = json]); the
    rest of the pipeline works on frames whose cells are strings and
    floats. *)
Record row (T V : Type) := mk_row {
  City : string;
  lat : float;
  lon : float;
  Time : T;
  Temperature : V
}.
Arguments mk_row {T V} _ _ _ _ _.
Arguments City {T V} _.
Arguments lat {T V} _.
Arguments lon {T V} _.
Arguments Time {T V} _.
Arguments Temperature {T V} _.

Abbreviation raw_record := (row json json).
Abbreviation ForecastRecord := (row string float).

(** ** The forecast fetcher *)

(** The outcome of the single HTTP exchange: no response at all, or a
    response with a status code and a body that decodes as JSON or not. *)
Inductive http_reply :=
| NoReply (cause : string)
| Reply (status : Z) (body : option json).

Definition requests_get (reply : http_reply) : result (Z * option json) :=
  match reply with
  | NoReply cause => Raise (RequestException cause)
  | Reply status body => Ok (status, body)
  end.

(** [response.raise_for_status()]: client and server error codes raise. *)
Definition raise_for_status (response : Z * option json) : result unit :=
  if ((400 <=? response.1) && (response.1 <? 600))%Z
  then Raise (HTTPError response.1) else Ok ().

Definition response_json (response : Z * option json) : result json :=
  match response.2 with
  | Some data => Ok data
  | None => Raise JSONDecodeError
  end.

(** [data if isinstance(data, list) else [data]] *)
Definition data_list_of (data : json) : list json :=
  match data with
  | JArr xs => xs
  | _ => [data]
  end.

(** The inner loop over [zip(times, temps)], appending to [all_records]. *)
Fixpoint append_records (i : nat) (city_name : string)
    (pairs : list (json * json)) (all_records : list raw_record)
  : result (list raw_record) :=
  match pairs with
  | [] => Ok all_records
  | (t, temp) :: rest =>
      la ← list_getitem lats i;
      lo ← list_getitem lons i;
      append_records i city_name rest
        (all_records ++ [mk_row city_name la lo t temp])
  end.

(** The outer loop over [enumerate(data_list)], from index [i] on. *)
Fixpoint fetch_loop (i : nat) (data_list : list json)
    (all_records : list raw_record) : result (list raw_record) :=
  match data_list with
  | [] => Ok all_records
  | city_data :: rest =>
      city_name ← list_getitem city_names i;
      hourly ← getitem city_data "hourly";
      times ← getitem hourly "time";
      hourly' ← getitem city_data "hourly";
      temps ← getitem hourly' "temperature_2m";
      ts ← iter times;
      vs ← iter temps;
      all_records' ← append_records i city_name (zip ts vs) all_records;
      fetch_loop (S i) rest all_records'
  end.

(** The body of the [try]. *)
Definition fetch_try (reply : http_reply) : result (list raw_record) :=
  response ← requests_get reply;
  _ ← raise_for_status response;
  data ← response_json response;
  fetch_loop 0 (data_list_of data) [].

(** What the page shows: the [st.error] call of the [except] branch, recorded
    with the exception its message formats. *)
Inductive st_event :=
| st_error (e : exn).

(** [fetch_forecast_data()]: the frame returned, and the messages emitted.
    [pd.DataFrame(all_records)] keeps one row per dictionary, in order;
    [pd.DataFrame()] has no rows. *)
Definition fetch_forecast_data (reply : http_reply)
  : list raw_record * list st_event :=
  match fetch_try reply with
  | Ok all_records => (all_records, [])
  | Raise e => ([], [st_error e])
  end.

(** ** The colour encoder *)

(** [get_color(temp)]: a chain of [<] tests against the integer literals,
    returning a fresh four-element list. *)
Definition get_color (temp : float) : list Z :=
  if Float.ltb temp (Float.of_int 0) then [0; 0; 255; 200]%Z
  else if Float.ltb temp (Float.of_int 10) then [0; 255; 255; 200]%Z
  else if Float.ltb temp (Float.of_int 20) then [0; 255; 0; 200]%Z
  else if Float.ltb temp (Float.of_int 25) then [255; 165; 0; 200]%Z
  else [255; 0; 0; 200]%Z.

(** ** The temporal index *)

(** [Series.unique()]: the hash-table scan of pandas, which appends every
    value not met before to the vector of uniques (order of appearance). *)
Fixpoint unique_loop (values uniques : list string) : list string :=
  match values with
  | [] => uniques
  | v :: rest =>
      if bool_decide (v ∈ uniques) then unique_loop rest uniques
      else unique_loop rest (uniques ++ [v])
  end.

Definition unique (values : list string) : list string := unique_loop values [].

(** [full_df['Time'].unique()] *)
Definition time_options (full_df : list ForecastRecord) : list string :=
  unique (Time <$> full_df).

(** [datetime.now()] *)
Record datetime := {
  year : nat; month : nat; day : nat;
  hour : nat; minute : nat; second : nat; microsecond : nat
}.

Definition digit (n : nat) : Ascii.ascii := Ascii.ascii_of_nat (48 + n mod 10).

(** [%m], [%d], [%H]: two digits; [%Y]: four digits (years 1000 to 9999). *)
Definition pad2 (n : nat) : string :=
  String (digit (n / 10)) (String (digit n) EmptyString).
Definition pad4 (n : nat) : string :=
  String (digit (n / 1000)) (String (digit (n / 100)) (pad2 n)).

(** [now.strftime('%Y-%m-%dT%H:00')] *)
Definition current_hour_iso (now : datetime) : string :=
  pad4 (year now) +:+ "-" +:+ pad2 (month now) +:+ "-" +:+ pad2 (day now)
    +:+ "T" +:+ pad2 (hour now) +:+ ":00".

(** [lst.index(x)]: the position of the first item equal to [x]. *)
Fixpoint list_index (lst : list string) (x : string) : result nat :=
  match lst with
  | [] => Raise ValueError
  | y :: rest =>
      if String.eqb y x then Ok 0
      else i ← list_index rest x; Ok (S i)
  end.

(** The [try] / [except ValueError] around [list(time_options).index(...)]. *)
Definition default_index (options : list string) (now : datetime) : nat :=
  match list_index options (current_hour_iso now) with
  | Ok i => i
  | Raise _ => 0
  end.

(** ** The snapshot selector *)

(** [series == value] *)
Definition series_eq (series : list string) (value : string) : list bool :=
  (fun t => String.eqb t value) <$> series.

(** [df[mask]]: the rows whose mask entry is [True]. *)
Fixpoint boolean_index {A} (df : list A) (mask : list bool) : list A :=
  match df, mask with
  | r :: df', b :: mask' =>
      if b then r :: boolean_index df' mask' else boolean_index df' mask'
  | _, _ => []
  end.

(** [full_df[full_df['Time'] == selected_time].copy()] *)
Definition df_filtered (full_df : list ForecastRecord) (selected_time : string)
  : list ForecastRecord :=
  boolean_index full_df (series_eq (Time <$> full_df) selected_time).

(** ** The visual encoder *)

(** [series + k] and [series * k] for an integer literal [k]. *)
Definition series_add (series : list float) (k : Z) : list float :=
  (fun x => Float.add x (Float.of_int k)) <$> series.
Definition series_mul (series : list float) (k : Z) : list float :=
  (fun x => Float.mul x (Float.of_int k)) <$> series.

(** [series.apply(f)] *)
Definition apply {A B} (f : A -> B) (series : list A) : list B := f <$> series.

(** A row after [df['elevation'] = ...], and after [df['color'] = ...]. *)
Record elevated := mk_elevated {
  e_row : ForecastRecord;
  e_elevation : float
}.

Record encoded := mk_encoded {
  base : ForecastRecord;
  elevation : float;
  color : list Z
}.

(** [df['elevation'] = (df['Temperature'] + 20) * 2000]: the new column is
    computed from the frame itself, so it is aligned row by row. *)
Definition with_elevation (df : list ForecastRecord) : list elevated :=
  zip_with mk_elevated df
    (series_mul (series_add (Temperature <$> df) 20) 2000).

(** [df['color'] = df['Temperature'].apply(get_color)] *)
Definition with_color (df : list elevated) : list encoded :=
  zip_with (fun r c => mk_encoded (e_row r) (e_elevation r) c) df
    (apply get_color ((fun r => Temperature (e_row r)) <$> df)).

(** Lines 119 to 126: the encoded snapshot handed to the map layer. *)
Definition encode (df : list ForecastRecord) : list encoded :=
  with_color (with_elevation df).

Definition snapshot (full_df : list ForecastRecord) (selected_time : string)
  : list encoded :=
  encode (df_filtered full_df selected_time).

(** ** Typed frames *)

(** A frame built from a response that follows the service contract has
    string timestamps and binary64 temperatures. *)
Definition typed_row (r : raw_record) : option ForecastRecord :=
  match Time r, Temperature r with
  | JStr t, JNum x => Some (mk_row (City r) (lat r) (lon r) t x)
  | _, _ => None
  end.

Definition typed_frame (df : list raw_record) : option (list ForecastRecord) :=
  mapM typed_row df.

(** ** Notions used to state the properties *)

(** The band table of the specification, over the rational value of the
    temperature: half-open bands, each with its colour and alpha 200. *)
Inductive spec_band_color : Q -> list Z -> Prop :=
| band_below_0 q : (q < 0)%Q -> spec_band_color q [0; 0; 255; 200]%Z
| band_0_10 q : (0 <= q)%Q -> (q < 10)%Q -> spec_band_color q [0; 255; 255; 200]%Z
| band_10_20 q : (10 <= q)%Q -> (q < 20)%Q -> spec_band_color q [0; 255; 0; 200]%Z
| band_20_25 q : (20 <= q)%Q -> (q < 25)%Q -> spec_band_color q [255; 165; 0; 200]%Z
| band_from_25 q : (25 <= q)%Q -> spec_band_color q [255; 0; 0; 200]%Z.

Definition is_object (v : json) : bool :=
  match v with
  | JObj _ => true
  | _ => false
  end.

Definition iterable (v : json) : bool :=
  match v with
  | JArr _ | JStr _ | JObj _ => true
  | JNull | JBool _ | JNum _ => false
  end.

(** The point objects on which the loop body raises: the point or its
    [hourly] entry is not an object, [hourly], [hourly.time] or
    [hourly.temperature_2m] is missing, or one of the two series cannot be
    iterated (null, a boolean, a number).  A series of another wrong type
    that Python still iterates, a string or an object, is not among them:
    [zip] walks its characters or its keys and the loop builds rows. *)
Inductive malformed_point : json -> Prop :=
| point_not_object v :
    is_object v = false -> malformed_point v
| hourly_missing kvs :
    dict_get "hourly" kvs = None -> malformed_point (JObj kvs)
| hourly_not_object kvs h :
    dict_get "hourly" kvs = Some h -> is_object h = false ->
    malformed_point (JObj kvs)
| time_missing kvs hk :
    dict_get "hourly" kvs = Some (JObj hk) -> dict_get "time" hk = None ->
    malformed_point (JObj kvs)
| temperature_missing kvs hk :
    dict_get "hourly" kvs = Some (JObj hk) ->
    dict_get "temperature_2m" hk = None ->
    malformed_point (JObj kvs)
| time_not_iterable kvs hk v :
    dict_get "hourly" kvs = Some (JObj hk) -> dict_get "time" hk = Some v ->
    iterable v = false -> malformed_point (JObj kvs)
| temperature_not_iterable kvs hk v :
    dict_get "hourly" kvs = Some (JObj hk) ->
    dict_get "temperature_2m" hk = Some v ->
    iterable v = false -> malformed_point (JObj kvs).

(** The replies on which the body of the [try] raises: no response, a
    status from 400 to 599 (the only ones [raise_for_status] rejects; 1xx
    and 3xx pass), a body that is not JSON, a point on which the loop body
    raises, or more points than the catalogue has. *)
Inductive failing_fetch : http_reply -> Prop :=
| transport_failure cause : failing_fetch (NoReply cause)
| error_status status body :
    (400 <= status < 600)%Z -> failing_fetch (Reply status body)
| undecodable_body status : failing_fetch (Reply status None)
| malformed_fields status data :
    Exists malformed_point (data_list_of data) ->
    failing_fetch (Reply status (Some data))
| surplus_points status data :
    length cities < length (data_list_of data) ->
    failing_fetch (Reply status (Some data)).

(** The two series the loop body reads from one point object. *)
Definition point_series (city_data : json) : result (list json * list json) :=
  hourly ← getitem city_data "hourly";
  times ← getitem hourly "time";
  hourly' ← getitem city_data "hourly";
  temps ← getitem hourly' "temperature_2m";
  ts ← iter times;
  vs ← iter temps;
  Ok (ts, vs).

(** A point object that follows the service contract: both series are
    lists. *)
Definition point_payload (city_data : json) : option (list json * list json) :=
  match city_data with
  | JObj kvs =>
      match dict_get "hourly" kvs with
      | Some (JObj hk) =>
          match dict_get "time" hk, dict_get "temperature_2m" hk with
          | Some (JArr ts), Some (JArr vs) => Some (ts, vs)
          | _, _ => None
          end
      | _ => None
      end
  | _ => None
  end.

(** The rows point [i] of the catalogue contributes for the series [ts] and
    [vs]: positional pairs, cut at the shorter series. *)
Definition point_rows (i : nat) (ts vs : list json) : list raw_record :=
  match cities !! i with
  | Some c => zip_with (mk_row c.1 (c_lat c.2) (c_lon c.2)) ts vs
  | None => []
  end.

(** Sample data. *)
Definition point_object (ts vs : list json) : json :=
  JObj [("latitude", JNum (Float.of_decimal 430618 10000));
        ("hourly", JObj [("time", JArr ts); ("temperature_2m", JArr vs)])].

Definition mismatched_point : json :=
  point_object [JStr "2024-01-01T00:00"; JStr "2024-01-01T01:00"]
               [JNum (Float.of_decimal 15 10)].

(** A point whose [hourly.time] is a string instead of a list. *)
Definition string_series_point : json :=
  JObj [("hourly", JObj [("time", JStr "ab");
                         ("temperature_2m", JArr [JNull; JNull; JNull])])].

Definition sample_points : list json :=
  [ point_object [JStr "2024-01-01T00:00"; JStr "2024-01-01T01:00"]
                 [JNum (Float.of_int 1)];
    point_object [JStr "2024-01-01T00:00"]
                 [JNum (Float.of_int 3); JNum (Float.of_int 4)] ].

Definition sample_payloads : list (list json * list json) :=
  [ ([JStr "2024-01-01T00:00"; JStr "2024-01-01T01:00"], [JNum (Float.of_int 1)]);
    ([JStr "2024-01-01T00:00"], [JNum (Float.of_int 3); JNum (Float.of_int 4)]) ].

Definition sample_hours : list json :=
  [JStr "2024-01-01T00:00"; JStr "2024-01-01T01:00"; JStr "2024-01-01T02:00"].

Definition sample_reply : http_reply :=
  Reply 200 (Some (JArr
    [ point_object sample_hours
        [JNum (Float.of_int (-6)); JNum (Float.of_int (-5)); JNum (Float.of_int (-4))];
      point_object sample_hours
        [JNum (Float.of_int 24); JNum (Float.of_int 25); JNum (Float.of_int 26)] ])).

(** ** The page *)

(** [full_df.empty] *)
Definition df_empty {A} (df : list A) : bool :=
  match df with
  | [] => true
  | _ :: _ => false
  end.

(** What the script puts on the page after the fetch: the slider over the
    time options with its initial value, the timestamp the slider returns
    and the frame handed to the column layer; or, in the [else] branch, the
    fixed load-failure message.  (The sorted temperature table is displayed
    from the same filtered frame and is not part of this record.) *)
Inductive page_view :=
| MapView (options : list string) (value : string) (selected_time : string)
    (layer_data : list encoded)
| LoadFailed.

(** Lines 94 to 177.  [select_slider options value] stands for
    [st.select_slider(..., options=options, value=value)]: the value the
    widget currently holds.  [time_options[default_index]] is an array
    access and raises [IndexError] out of range. *)
Definition page_body (full_df : list ForecastRecord) (now : datetime)
    (select_slider : list string -> string -> string) : result page_view :=
  if df_empty full_df then Ok LoadFailed
  else
    value ← list_getitem (time_options full_df)
              (default_index (time_options full_df) now);
    Ok (MapView (time_options full_df) value
          (select_slider (time_options full_df) value)
          (snapshot full_df (select_slider (time_options full_df) value))).

(** Lines 91 to 177 on a reply: the messages of the fetch and the page body
    on the frame it returned.  [None] stands for a frame whose cells are not
    strings and floats, which the typed pipeline does not describe. *)
Definition script (reply : http_reply) (now : datetime)
    (select_slider : list string -> string -> string)
  : option (list st_event * result page_view) :=
  full_df ← typed_frame (fetch_forecast_data reply).1;
  Some ((fetch_forecast_data reply).2, page_body full_df now select_slider).

(** The rank of a colour on the scale from cold to hot. *)
Definition warmth (c : list Z) : nat :=
  if decide (c = [0; 0; 255; 200]%Z) then 0
  else if decide (c = [0; 255; 255; 200]%Z) then 1
  else if decide (c = [0; 255; 0; 200]%Z) then 2
  else if decide (c = [255; 165; 0; 200]%Z) then 3
  else 4.

(** The sign bit of a float that is not a NaN ([true]: negative). *)
Definition sign_of (x : float) : option bool :=
  match x with
  | S754_zero s | S754_finite s _ _ | S754_infinity s => Some s
  | S754_nan => None
  end.

(** The rows of point [i] of the catalogue, for cells of any type (the rows
    [point_rows] gives for JSON cells). *)
Definition rows_at {T V} (i : nat) (ts : list T) (vs : list V) : list (row T V) :=
  match cities !! i with
  | Some c => zip_with (mk_row c.1 (c_lat c.2) (c_lon c.2)) ts vs
  | None => []
  end.

(** The JSON series of a point that reports the timestamps [p.1] and the
    temperatures [p.2]. *)
Definition json_payload (p : list string * list float) : list json * list json :=
  (JStr <$> p.1, JNum <$> p.2).

(** The frame of a response in which every point reports the same hours:
    point [k] of the catalogue has the temperatures [temps_list !! k]. *)
Definition uniform_frame (hours : list string) (temps_list : list (list float))
  : list ForecastRecord :=
  concat (imap (fun k temps => rows_at k hours temps) temps_list).

#[global] Instance spec_float_eq_dec : EqDecision spec_float.
Proof. solve_decision. Defined.

(** The integers from [lo] on, [n] of them. *)
Definition Z_range (lo : Z) (n : nat) : list Z :=
  (fun i => (lo + Z.of_nat i)%Z) <$> seq 0 n.

(** Sample data: thirteen points without hours, a clock and a slider left
    at its initial value. *)
Definition empty_points : list json := replicate 13 (point_object [] []).

Definition sample_now : datetime :=
  {| year := 2024; month := 1; day := 1; hour := 1;
     minute := 30; second := 0; microsecond := 0 |}.


Definition slider_untouched (options : list string) (value : string) : string :=
  value.

Definition sample_temps : list (list float) :=
  [ [Float.of_int (-6); Float.of_int (-5); Float.of_int (-4)];
    [Float.of_int 24; Float.of_int 25; Float.of_int 26] ].

Definition sample_hour_strings : list string :=
  ["2024-01-01T00:00"; "2024-01-01T01:00"; "2024-01-01T02:00"].

(** * Properties *)

(** ** Binary64 comparison decides the order of the values *)

Module FloatFacts.
Import Float.
Local Open Scope Z_scope.

(** A mantissa of [d] binary digits lies in [[2^(d-1), 2^d)]. *)
Lemma digits2_upper m : Z.pos m < 2 ^ Z.pos (digits2_pos m).
Proof.
  induction m as [m IH | m IH |]; cbn [digits2_pos]; [| | done];
    rewrite Pos2Z.inj_succ, Z.pow_succ_r by lia; lia.
Qed.

Lemma digits2_lower m : 2 ^ (Z.pos (digits2_pos m) - 1) <= Z.pos m.
Proof.
  induction m as [m IH | m IH |]; cbn [digits2_pos]; [| | done];
    rewrite Pos2Z.inj_succ;
    replace (Z.succ (Z.pos (digits2_pos m)) - 1)
      with (Z.succ (Z.pos (digits2_pos m) - 1)) by lia;
    rewrite Z.pow_succ_r by lia; lia.
Qed.

(** Exponent and mantissa ranges of a valid binary64 number: normal numbers
    have a 53-bit mantissa, subnormal ones the least exponent. *)
Lemma bounded_range m e :
  bounded prec emax m e = true ->
  -1074 <= e <= 971 /\ Z.pos m < 2 ^ 53 /\ (-1074 < e -> 2 ^ 52 <= Z.pos m).
Proof.
  unfold bounded, canonical_mantissa, fexp, SpecFloat.emin, prec, emax.
  intros [Hc He%Z.leb_le]%andb_prop. apply Z.eqb_eq in Hc.
  pose proof (digits2_upper m) as Hu. pose proof (digits2_lower m) as Hl.
  set (d := Z.pos (digits2_pos m)) in *.
  assert (d <= 53) by lia.
  split; [lia|]. split.
  - eapply Z.lt_le_trans; [exact Hu|]. apply Z.pow_le_mono_r; lia.
  - intros Hlt. assert (d = 53) as Hd by lia. rewrite Hd in Hl. exact Hl.
Qed.

(** Magnitudes of valid floats compare like the pairs (exponent, mantissa). *)
Lemma magnitude_compare m1 e1 m2 e2 :
  bounded prec emax m1 e1 = true -> bounded prec emax m2 e2 = true ->
  match e1 ?= e2 with
  | Lt => Lt
  | Gt => Gt
  | Eq => Pos.compare_cont Eq m1 m2
  end = (Z.pos m1 * 2 ^ (e1 + 1074) ?= Z.pos m2 * 2 ^ (e2 + 1074)).
Proof.
  intros (He1 & Hm1 & Hn1)%bounded_range (He2 & Hm2 & Hn2)%bounded_range.
  assert (Hlt : forall ma ea mb eb,
             -1074 <= ea -> ea < eb -> Z.pos ma < 2 ^ 53 -> 2 ^ 52 <= Z.pos mb ->
             Z.pos ma * 2 ^ (ea + 1074) < Z.pos mb * 2 ^ (eb + 1074)).
  { intros ma ea mb eb Hea Hab Hma Hmb.
    assert (0 < 2 ^ (ea + 1074)) by (apply Z.pow_pos_nonneg; lia).
    replace (eb + 1074) with ((eb - ea - 1) + (1 + (ea + 1074))) by lia.
    rewrite (Z.pow_add_r 2 (eb - ea - 1)), (Z.pow_add_r 2 1) by lia.
    assert (1 <= 2 ^ (eb - ea - 1)) by (apply (Z.pow_le_mono_r 2 0); lia).
    change (2 ^ 1) with 2. change (2 ^ 53) with (2 * 2 ^ 52) in Hma.
    set (A := 2 ^ (ea + 1074)) in *. set (K := 2 ^ (eb - ea - 1)) in *.
    set (P := 2 ^ 52) in *.
    apply Z.lt_le_trans with (2 * P * A); [nia|].
    apply Z.le_trans with (Z.pos mb * (2 * A)); [nia|].
    replace (Z.pos mb * (K * (2 * A))) with (K * (Z.pos mb * (2 * A))) by ring.
    assert (0 <= Z.pos mb * (2 * A)) by nia. nia. }
  symmetry. destruct (Z.compare_spec e1 e2) as [-> | Hlt12 | Hgt12].
  - rewrite <- Zmult_compare_compat_r by (apply Z.lt_gt, Z.pow_pos_nonneg; lia). reflexivity.
  - apply Z.compare_lt_iff, Hlt; lia.
  - apply Z.compare_gt_iff, Hlt; lia.
Qed.

(** [SFcompare] is the comparison of the scaled integer values. *)
Lemma compare_scaled x y :
  valid x = true -> valid y = true ->
  is_finite x = true -> is_finite y = true ->
  SFcompare x y = Some (scaled x ?= scaled y).
Proof.
  destruct x as [sx | sx | | sx mx ex], y as [sy | sy | | sy my ey];
    try discriminate; cbn [valid valid_binary is_finite scaled SFcompare];
    intros Hx Hy _ _; f_equal.
  - apply bounded_range in Hy as (He & _ & _).
    assert (0 < 2 ^ (ey + 1074)) by (apply Z.pow_pos_nonneg; lia).
    symmetry; destruct sy; [apply Z.compare_gt_iff | apply Z.compare_lt_iff]; nia.
  - apply bounded_range in Hx as (He & _ & _).
    assert (0 < 2 ^ (ex + 1074)) by (apply Z.pow_pos_nonneg; lia).
    symmetry; destruct sx; [apply Z.compare_lt_iff | apply Z.compare_gt_iff]; nia.
  - pose proof (bounded_range _ _ Hx) as (Hex & _ & _).
    pose proof (bounded_range _ _ Hy) as (Hey & _ & _).
    assert (0 < 2 ^ (ex + 1074)) by (apply Z.pow_pos_nonneg; lia).
    assert (0 < 2 ^ (ey + 1074)) by (apply Z.pow_pos_nonneg; lia).
    destruct sx, sy.
    + change (Z.neg mx) with (- Z.pos mx). change (Z.neg my) with (- Z.pos my).
      rewrite !Z.mul_opp_l, Z.compare_opp, <- (magnitude_compare my ey mx ex) by assumption.
      rewrite (Z.compare_antisym ey ex), (Pos.compare_cont_antisym mx my Eq).
      destruct (ey ?= ex); reflexivity.
    + symmetry; apply Z.compare_lt_iff; nia.
    + symmetry; apply Z.compare_gt_iff; nia.
    + apply magnitude_compare; assumption.
Qed.

Lemma ltb_scaled x y :
  valid x = true -> valid y = true ->
  is_finite x = true -> is_finite y = true ->
  ltb x y = true <-> scaled x < scaled y.
Proof.
  intros Hx Hy Fx Fy. unfold ltb, SFltb. rewrite (compare_scaled x y) by assumption.
  rewrite <- Z.compare_lt_iff. destruct (scaled x ?= scaled y); split; congruence.
Qed.

(** The rational value is the scaled integer over [2^1074]. *)
Lemma to_Q_scaled x :
  valid x = true -> (to_Q x == inject_Z (scaled x) / inject_Z (2 ^ 1074))%Q.
Proof.
  destruct x as [s | s | | s m e]; cbn [valid valid_binary to_Q scaled]; try reflexivity.
  intros (He & _ & _)%bounded_range.
  rewrite inject_Z_mult, Zpower_Qpower by lia.
  rewrite Qpower_plus by discriminate.
  rewrite (Zpower_Qpower 2 1074) by lia.
  change (inject_Z 2) with 2%Q. field.
Qed.

(** [<] on valid finite floats is [<] on their values. *)
Lemma ltb_spec x y :
  valid x = true -> valid y = true ->
  is_finite x = true -> is_finite y = true ->
  ltb x y = true <-> (to_Q x < to_Q y)%Q.
Proof.
  intros Hx Hy Fx Fy. rewrite ltb_scaled, !to_Q_scaled by assumption.
  rewrite Zlt_Qlt. 
  assert (0 < inject_Z (2 ^ 1074))%Q as Hp.
  { rewrite <- (Zlt_Qlt 0). apply Z.pow_pos_nonneg; lia. }
  split; intros H.
  - apply Qmult_lt_r; [apply Qinv_lt_0_compat; exact Hp | exact H].
  - eapply Qmult_lt_r; [apply Qinv_lt_0_compat; exact Hp | exact H].
Qed.
End FloatFacts.

(** ** The visual encoder *)

Section Encoder.
Import Float.

(** Comparison of a valid finite temperature with an integer literal that
    binary64 represents exactly. *)
Lemma ltb_of_int t k :
  is_finite t = true -> valid t = true ->
  valid (of_int k) = true -> is_finite (of_int k) = true ->
  (to_Q (of_int k) == inject_Z k)%Q ->
  (ltb t (of_int k) = true <-> (to_Q t < inject_Z k)%Q) /\
  (ltb t (of_int k) = false <-> (inject_Z k <= to_Q t)%Q).
Proof.
  intros Ft Vt Vk Fk Hk.
  pose proof (FloatFacts.ltb_spec t (of_int k) Vt Vk Ft Fk) as H.
  rewrite Hk in H. split; [exact H|].
  split.
  - intros E. apply Qnot_lt_le. intros Hlt%H. congruence.
  - intros Hle. destruct (ltb t (of_int k)); [|reflexivity].
    exfalso. apply (Qlt_not_le (to_Q t) (inject_Z k)); [apply H; reflexivity | exact Hle].
Qed.

(** C1. For every finite binary64 temperature [t], the band table of the
    specification relates the value of [t] to one colour only, the one
    [get_color] returns: below 0 blue, from 0 up to 10 cyan, from 10 up to
    20 green, from 20 up to 25 orange, from 25 on red.  The colour has four
    components, the last one (alpha) is 200, and the boundary temperatures
    0, 10, 20 and 25 take the colour of the band they open. *)
Theorem get_color_band_table (t : float) (c : list Z) :
  is_finite t = true -> valid t = true ->
  (spec_band_color (to_Q t) c <-> get_color t = c) /\
  get_color t !! 3%nat = Some 200%Z /\ length (get_color t) = 4%nat /\
  get_color (of_int 0) = [0; 255; 255; 200]%Z /\
  get_color (of_int 10) = [0; 255; 0; 200]%Z /\
  get_color (of_int 20) = [255; 165; 0; 200]%Z /\
  get_color (of_int 25) = [255; 0; 0; 200]%Z.
Proof.
  intros Ft Vt.
  destruct (ltb_of_int t 0 Ft Vt) as [H0 H0']; [reflexivity .. |].
  destruct (ltb_of_int t 10 Ft Vt) as [H10 H10']; [reflexivity .. |].
  destruct (ltb_of_int t 20 Ft Vt) as [H20 H20']; [reflexivity .. |].
  destruct (ltb_of_int t 25 Ft Vt) as [H25 H25']; [reflexivity .. |].
  change (inject_Z 0) with 0%Q in *. change (inject_Z 10) with 10%Q in *.
  change (inject_Z 20) with 20%Q in *. change (inject_Z 25) with 25%Q in *.
  repeat match goal with |- _ /\ _ => split end;
    [ | | | vm_compute; reflexivity ..]; unfold get_color;
    (destruct (ltb t (of_int 0));
      [pose proof (proj1 H0 eq_refl) as E0 | pose proof (proj1 H0' eq_refl) as E0;
       destruct (ltb t (of_int 10));
       [pose proof (proj1 H10 eq_refl) as E10 | pose proof (proj1 H10' eq_refl) as E10;
        destruct (ltb t (of_int 20));
        [pose proof (proj1 H20 eq_refl) as E20 | pose proof (proj1 H20' eq_refl) as E20;
         destruct (ltb t (of_int 25));
         [pose proof (proj1 H25 eq_refl) as E25 | pose proof (proj1 H25' eq_refl) as E25]]]]);
    clear H0 H0' H10 H10' H20 H20' H25 H25'; try reflexivity;
    (split; [ intros Hb; inversion Hb; subst; first [reflexivity | exfalso; lra]
            | intros <-; constructor; lra ]).
Qed.

(** The theorem at 9.999 degrees: the cyan band. *)
Lemma get_color_band_table_witness :
  (spec_band_color (to_Q (of_decimal 9999 1000)) [0; 255; 255; 200]%Z <->
   get_color (of_decimal 9999 1000) = [0; 255; 255; 200]%Z) /\
  get_color (of_decimal 9999 1000) !! 3%nat = Some 200%Z /\
  length (get_color (of_decimal 9999 1000)) = 4%nat /\
  get_color (of_int 0) = [0; 255; 255; 200]%Z /\
  get_color (of_int 10) = [0; 255; 0; 200]%Z /\
  get_color (of_int 20) = [255; 165; 0; 200]%Z /\
  get_color (of_int 25) = [255; 0; 0; 200]%Z.
Proof.
  apply (get_color_band_table (of_decimal 9999 1000) [0; 255; 255; 200]%Z);
    vm_compute; reflexivity.
Defined.

(** The temperatures the specification lists for the encoder. *)
Lemma get_color_samples :
  get_color (of_int (-50)) = [0; 0; 255; 200]%Z /\
  get_color (of_decimal (-1) 1000) = [0; 0; 255; 200]%Z /\
  get_color (of_int 0) = [0; 255; 255; 200]%Z /\
  get_color (of_decimal 9999 1000) = [0; 255; 255; 200]%Z /\
  get_color (of_int 10) = [0; 255; 0; 200]%Z /\
  get_color (of_decimal 19999 1000) = [0; 255; 0; 200]%Z /\
  get_color (of_int 20) = [255; 165; 0; 200]%Z /\
  get_color (of_decimal 24999 1000) = [255; 165; 0; 200]%Z /\
  get_color (of_int 25) = [255; 0; 0; 200]%Z /\
  get_color (of_int 60) = [255; 0; 0; 200]%Z.
Proof. vm_compute. repeat split. Qed.

(** Outside the finite numbers every test of the chain is decided by the
    sign, or fails: a NaN falls through to the last colour. *)
Lemma get_color_not_finite :
  get_color S754_nan = [255; 0; 0; 200]%Z /\
  get_color (S754_infinity false) = [255; 0; 0; 200]%Z /\
  get_color (S754_infinity true) = [0; 0; 255; 200]%Z.
Proof. vm_compute. repeat split. Qed.

End Encoder.

Section Encoding.

Lemma encode_cons r df :
  encode (r :: df) =
  mk_encoded r
    (Float.mul (Float.add (Temperature r) (Float.of_int 20)) (Float.of_int 2000))
    (get_color (Temperature r))
    :: encode df.
Proof. reflexivity. Qed.

(** Both column assignments together act row by row. *)
Lemma encode_map df :
  encode df =
  (fun r => mk_encoded r
     (Float.mul (Float.add (Temperature r) (Float.of_int 20)) (Float.of_int 2000))
     (get_color (Temperature r))) <$> df.
Proof.
  induction df as [| r df IH]; [reflexivity|].
  rewrite encode_cons, IH. reflexivity.
Qed.

(** C2. The elevation column of an encoded frame holds, row by row,
    [(t + 20) * 2000] for the temperature [t] of the row, computed in
    binary64 as the program does; a row at -20 degrees gets elevation 0 and
    a row at 5 degrees gets 50000. *)
Theorem elevation_formula :
  (forall df : list ForecastRecord,
      elevation <$> encode df =
      (fun r => Float.mul (Float.add (Temperature r) (Float.of_int 20))
                  (Float.of_int 2000)) <$> df) /\
  (forall name la lo t,
      elevation <$> encode [mk_row name la lo t (Float.of_int (-20))]
      = [Float.of_int 0]) /\
  (forall name la lo t,
      elevation <$> encode [mk_row name la lo t (Float.of_int 5)]
      = [Float.of_int 50000]).
Proof.
  split; [| split].
  - intros df. rewrite encode_map, <- list_fmap_compose. reflexivity.
  - intros. vm_compute. reflexivity.
  - intros. vm_compute. reflexivity.
Qed.

(** The formula is evaluated with binary64 rounding: at 0.1 degrees the
    elevation is a float next to, and not equal to, the rational
    [(t + 20) * 2000]. *)
Lemma elevation_is_rounded :
  Qeq_bool
    (Float.to_Q (Float.mul (Float.add (Float.of_decimal 1 10) (Float.of_int 20))
                   (Float.of_int 2000)))
    ((Float.to_Q (Float.of_decimal 1 10) + 20) * 2000)
  = false.
Proof. vm_compute. reflexivity. Qed.

(** C9. Encoding the selected snapshot only adds columns: dropping
    [elevation] and [color] gives back the filtered frame, so the rows keep
    their number and order, and each keeps its city, latitude, longitude,
    timestamp and temperature. *)
Theorem snapshot_frame (full_df : list ForecastRecord) (selected_time : string) :
  base <$> snapshot full_df selected_time = df_filtered full_df selected_time /\
  length (snapshot full_df selected_time)
    = length (df_filtered full_df selected_time) /\
  forall i r, snapshot full_df selected_time !! i = Some r ->
    exists r0, df_filtered full_df selected_time !! i = Some r0 /\
      City (base r) = City r0 /\ lat (base r) = lat r0 /\
      lon (base r) = lon r0 /\ Time (base r) = Time r0 /\
      Temperature (base r) = Temperature r0.
Proof.
  unfold snapshot. generalize (df_filtered full_df selected_time) as df.
  intros df. rewrite encode_map.
  split; [| split].
  - rewrite <- list_fmap_compose. apply list_fmap_id.
  - apply length_fmap.
  - intros i r Hr. apply list_lookup_fmap_Some in Hr as (r0 & -> & Hr0).
    exists r0. split; [exact Hr0 | repeat split].
Qed.

End Encoding.

(** ** The snapshot selector *)

Section Selector.

Lemma String_eqb_decide (a b : string) : String.eqb a b = bool_decide (a = b).
Proof.
  destruct (String.eqb_spec a b) as [-> | Hne].
  - by rewrite bool_decide_eq_true_2.
  - by rewrite bool_decide_eq_false_2.
Qed.

(** Indexing a frame by a mask computed from its own rows is a filter. *)
Lemma boolean_index_fmap {A} (p : A -> bool) (df : list A) :
  boolean_index df (p <$> df) = filter (fun r => p r = true) df.
Proof.
  induction df as [| r df IH]; [reflexivity|].
  cbn [fmap list_fmap boolean_index]. rewrite filter_cons.
  destruct (p r) eqn:E.
  - rewrite decide_True by done. f_equal. exact IH.
  - rewrite decide_False by congruence. exact IH.
Qed.

Lemma df_filtered_filter full_df T :
  df_filtered full_df T = filter (fun r => Time r = T) full_df.
Proof.
  unfold df_filtered, series_eq. rewrite <- list_fmap_compose.
  rewrite boolean_index_fmap. apply list_filter_iff.
  intros r. cbn. rewrite String_eqb_decide, bool_decide_eq_true. done.
Qed.

Lemma sublist_into_filter {A} (P : A -> Prop) `{!forall x, Decision (P x)} l df :
  l `sublist_of` df -> Forall P l -> l `sublist_of` filter P df.
Proof.
  induction 1 as [| x l1 l2 Hsub IH | x l1 l2 Hsub IH]; intros Hall.
  - constructor.
  - apply Forall_cons in Hall as [Hx Hall].
    rewrite filter_cons_True by done. constructor. auto.
  - rewrite filter_cons. destruct (decide (P x)); [constructor|]; auto.
Qed.

(** C4. The snapshot selector returns the rows whose timestamp equals [T]
    and no others, in their order in the frame: it is the filter of the
    frame by that equality, a subsequence of the frame that contains every
    subsequence of rows stamped [T].  When no row is stamped [T] the result
    is the empty frame (the selector is total: it returns a frame, never an
    error). *)
Theorem df_filtered_spec (full_df : list ForecastRecord) (T : string) :
  df_filtered full_df T = filter (fun r => Time r = T) full_df /\
  df_filtered full_df T `sublist_of` full_df /\
  (forall r, r ∈ df_filtered full_df T <-> r ∈ full_df /\ Time r = T) /\
  (forall l, l `sublist_of` full_df -> Forall (fun r => Time r = T) l ->
             l `sublist_of` df_filtered full_df T) /\
  ((T ∉ Time <$> full_df) <-> df_filtered full_df T = []).
Proof.
  rewrite df_filtered_filter. split; [reflexivity|].
  split; [apply sublist_filter|].
  split; [intros r; rewrite list_elem_of_filter; tauto|].
  split; [intros l; apply sublist_into_filter|].
  split.
  - intros Hnot. induction full_df as [| r df IH]; [reflexivity|].
    rewrite fmap_cons, not_elem_of_cons in Hnot. destruct Hnot as [Hne Hnot].
    rewrite filter_cons_False by congruence. auto.
  - intros Hnil [r [-> Hr]]%list_elem_of_fmap.
    by apply (filter_nil_not_elem_of _ _ r Hnil).
Qed.

End Selector.

(** ** The temporal index *)

Section Index.

Lemma unique_loop_app a b acc :
  unique_loop (a ++ b) acc = unique_loop b (unique_loop a acc).
Proof.
  revert acc. induction a as [| v a IH]; intros acc; [reflexivity|].
  cbn [app unique_loop]. destruct (bool_decide (v ∈ acc)); apply IH.
Qed.

(** One more value extends the index at its end, unless it was met. *)
Lemma unique_snoc p x :
  unique (p ++ [x]) = if decide (x ∈ unique p) then unique p else unique p ++ [x].
Proof.
  unfold unique. rewrite unique_loop_app. cbn [unique_loop].
  destruct (decide (x ∈ unique_loop p [])) as [Hin | Hout].
  - by rewrite bool_decide_eq_true_2.
  - by rewrite bool_decide_eq_false_2.
Qed.

Lemma elem_of_unique_loop vs acc x :
  x ∈ unique_loop vs acc <-> x ∈ acc \/ x ∈ vs.
Proof.
  revert acc. induction vs as [| v vs IH]; intros acc; cbn [unique_loop].
  - rewrite elem_of_nil. tauto.
  - destruct (bool_decide_reflect (v ∈ acc)) as [Hin | Hout];
      rewrite IH, ?elem_of_app, !elem_of_cons, ?elem_of_nil.
    + split; [tauto|]. intros [? | [-> | ?]]; auto.
    + tauto.
Qed.

Lemma elem_of_unique vs x : x ∈ unique vs <-> x ∈ vs.
Proof. unfold unique. rewrite elem_of_unique_loop, elem_of_nil. tauto. Qed.

Lemma NoDup_unique_loop vs acc : NoDup acc -> NoDup (unique_loop vs acc).
Proof.
  revert acc. induction vs as [| v vs IH]; intros acc Hnd; cbn [unique_loop]; [done|].
  destruct (bool_decide_reflect (v ∈ acc)) as [Hin | Hout]; apply IH; [done|].
  apply NoDup_app. split; [done|]. split; [|apply NoDup_singleton].
  intros y Hy ->%list_elem_of_singleton. done.
Qed.

(** Entry [i] of the index first shows up in the input right after a prefix
    that holds exactly the values of the entries before it. *)
Lemma unique_first_seen vs i a :
  unique vs !! i = Some a ->
  exists p s, vs = p ++ a :: s /\ (a ∉ p) /\
              forall x, x ∈ p <-> x ∈ take i (unique vs).
Proof.
  revert i. induction vs as [| v vs IH] using rev_ind; intros i Hi; [done|].
  rewrite unique_snoc in Hi |- *.
  destruct (decide (v ∈ unique vs)) as [Hin | Hout].
  - destruct (IH i Hi) as (p & s & -> & Hp & Hx).
    exists p, (s ++ [v]). by rewrite <- app_assoc.
  - destruct (decide (i < length (unique vs))) as [Hlt | Hge].
    + rewrite lookup_app_l in Hi by done.
      destruct (IH i Hi) as (p & s & -> & Hp & Hx).
      exists p, (s ++ [v]). rewrite <- app_assoc. split; [done|]. split; [done|].
      rewrite take_app_le by lia. done.
    + rewrite lookup_app_r in Hi by lia.
      apply list_lookup_singleton_Some in Hi as [Hi <-].
      exists vs, []. split; [done|]. rewrite <- elem_of_unique. split; [done|].
      intros x. rewrite take_app_ge by lia.
      replace (i - length (unique vs)) with 0 by lia.
      rewrite take_0, app_nil_r, elem_of_unique. done.
Qed.

(** C5. The temporal index has no repeated entry, its entries are the
    timestamps of the rows of the frame (each is the timestamp of some row,
    and each timestamp of a row is an entry), and they stand in first-seen
    order: entry [i] first occurs in the timestamp column right after a
    prefix whose values are exactly the entries before [i].  No ordering of
    the timestamps themselves is involved. *)
Theorem time_options_spec (full_df : list ForecastRecord) :
  NoDup (time_options full_df) /\
  (forall t, t ∈ time_options full_df <-> exists r, r ∈ full_df /\ Time r = t) /\
  (forall i t, time_options full_df !! i = Some t ->
     exists p s, Time <$> full_df = p ++ t :: s /\ (t ∉ p) /\
                 forall x, x ∈ p <-> x ∈ take i (time_options full_df)).
Proof.
  unfold time_options. split; [|split].
  - apply NoDup_unique_loop, NoDup_nil_2.
  - intros t. rewrite elem_of_unique, list_elem_of_fmap.
    split; intros (r & H1 & H2); exists r; auto.
  - intros i t. apply unique_first_seen.
Qed.

(** A column shuffled across hours keeps its order of appearance: the index
    is not sorted. *)
Lemma time_options_shuffled :
  unique ["2024-01-01T02:00"; "2024-01-01T00:00"; "2024-01-01T02:00";
          "2024-01-01T01:00"; "2024-01-01T00:00"]
  = ["2024-01-01T02:00"; "2024-01-01T00:00"; "2024-01-01T01:00"].
Proof. reflexivity. Qed.

Lemma list_index_Ok lst x i :
  list_index lst x = Ok i ->
  lst !! i = Some x /\ forall j, j < i -> lst !! j ≠ Some x.
Proof.
  revert i. induction lst as [| y lst IH]; intros i; cbn [list_index]; [done|].
  destruct (String.eqb_spec y x) as [-> | Hne].
  - intros [= <-]. split; [done|]. lia.
  - destruct (list_index lst x) as [k | e]; [|done]. cbn. intros [= <-].
    destruct (IH k eq_refl) as [Hk Hfirst]. split; [done|].
    intros [| j] Hj; cbn; [congruence|]. apply Hfirst. lia.
Qed.

Lemma list_index_Raise lst x e :
  list_index lst x = Raise e -> e = ValueError /\ x ∉ lst.
Proof.
  induction lst as [| y lst IH]; cbn [list_index].
  - intros [= <-]. split; [done|]. apply not_elem_of_nil.
  - destruct (String.eqb_spec y x) as [-> | Hne]; [done|].
    destruct (list_index lst x) as [k | e']; [done|]. cbn. intros [= <-].
    destruct (IH eq_refl) as [-> Hout]. split; [done|].
    rewrite not_elem_of_cons. split; [congruence | done].
Qed.

(** C6. With the clock read as [now] and formatted as [YYYY-MM-DDTHH:00]
    (sixteen characters, built from the year, month, day and hour only, so
    minutes and below are dropped): when that string occurs among the
    options the default index is its first position, and otherwise the
    default index is 0.  [default_index] is a total function: no clock value
    and no list of options makes it fail. *)
Theorem default_index_spec (options : list string) (now : datetime) :
  (current_hour_iso now ∈ options ->
     options !! default_index options now = Some (current_hour_iso now) /\
     forall j, j < default_index options now ->
               options !! j ≠ Some (current_hour_iso now)) /\
  ((current_hour_iso now ∉ options) -> default_index options now = 0) /\
  (forall now', year now' = year now -> month now' = month now ->
                day now' = day now -> hour now' = hour now ->
                current_hour_iso now' = current_hour_iso now /\
                default_index options now' = default_index options now) /\
  String.length (current_hour_iso now) = 16 /\
  current_hour_iso now =
    pad4 (year now) +:+ "-" +:+ pad2 (month now) +:+ "-" +:+ pad2 (day now)
      +:+ "T" +:+ pad2 (hour now) +:+ ":00".
Proof.
  unfold default_index. split; [|split; [|split; [|split]]].
  - intros Hin. destruct (list_index options _) as [i | e] eqn:E.
    + by apply list_index_Ok.
    + by apply list_index_Raise in E as [_ Hout].
  - intros Hout. destruct (list_index options _) as [i | e] eqn:E; [|done].
    apply list_index_Ok in E as [Hi _]. apply list_elem_of_lookup_2 in Hi. done.
  - intros now' Hy Hm Hd Hh. unfold current_hour_iso. by rewrite Hy, Hm, Hd, Hh.
  - reflexivity.
  - reflexivity.
Qed.

(** The clock at 07:59:01 on 3 November 2026 selects the 07:00 entry. *)
Lemma default_index_sample :
  current_hour_iso
    {| year := 2026; month := 11; day := 3; hour := 7;
       minute := 59; second := 1; microsecond := 5 |} = "2026-11-03T07:00" /\
  default_index ["2026-11-03T06:00"; "2026-11-03T07:00"; "2026-11-03T08:00"]
    {| year := 2026; month := 11; day := 3; hour := 7;
       minute := 59; second := 1; microsecond := 5 |} = 1 /\
  default_index ["2026-11-04T06:00"; "2026-11-04T07:00"]
    {| year := 2026; month := 11; day := 3; hour := 7;
       minute := 59; second := 1; microsecond := 5 |} = 0.
Proof. vm_compute. repeat split. Qed.

End Index.

(** ** The forecast fetcher *)

Section Fetch.

Lemma bind_Ok {A B} (a : A) (f : A -> result B) : (Ok a ≫= f) = f a.
Proof. reflexivity. Qed.

Lemma bind_Raise {A B} e (f : A -> result B) : (Raise e ≫= f) = Raise e.
Proof. reflexivity. Qed.

(** One turn of the outer loop: the city name, the two series of the point,
    the inner loop, then the remaining points. *)
Lemma fetch_loop_cons i city_data rest acc :
  fetch_loop i (city_data :: rest) acc =
  (city_name ← list_getitem city_names i;
   p ← point_series city_data;
   acc' ← append_records i city_name (zip p.1 p.2) acc;
   fetch_loop (S i) rest acc').
Proof.
  cbn [fetch_loop]. unfold point_series.
  destruct (list_getitem city_names i) as [name | e]; [|reflexivity]. cbn.
  destruct (getitem city_data "hourly") as [hourly | e]; [|reflexivity]. cbn.
  destruct (getitem hourly "time") as [times | e]; [|reflexivity]. cbn.
  destruct (getitem hourly "temperature_2m") as [temps | e]; [|reflexivity]. cbn.
  destruct (iter times) as [ts | e]; [|reflexivity]. cbn.
  destruct (iter temps) as [vs | e]; reflexivity.
Qed.

Lemma list_getitem_city_names i c :
  cities !! i = Some c -> list_getitem city_names i = Ok c.1.
Proof.
  intros Hc. unfold list_getitem, city_names. by rewrite list_lookup_fmap, Hc.
Qed.

Lemma list_getitem_city_names_None i :
  cities !! i = None -> list_getitem city_names i = Raise IndexError.
Proof.
  intros Hc. unfold list_getitem, city_names. by rewrite list_lookup_fmap, Hc.
Qed.

(** Within the catalogue the inner loop cannot fail: it appends one row per
    pair. *)
Lemma append_records_ok i c pairs acc :
  cities !! i = Some c ->
  append_records i c.1 pairs acc =
  Ok (acc ++ ((fun p => mk_row c.1 (c_lat c.2) (c_lon c.2) p.1 p.2) <$> pairs)).
Proof.
  intros Hc. revert acc.
  induction pairs as [| [t temp] pairs IH]; intros acc; cbn [append_records].
  - by rewrite app_nil_r.
  - unfold list_getitem, lats, lons. rewrite !list_lookup_fmap, Hc. cbn.
    rewrite IH, <- app_assoc. reflexivity.
Qed.

Lemma append_records_rows i c ts vs acc :
  cities !! i = Some c ->
  append_records i c.1 (zip ts vs) acc = Ok (acc ++ point_rows i ts vs).
Proof.
  intros Hc. rewrite (append_records_ok i c) by done.
  unfold point_rows. rewrite Hc. do 2 f_equal.
  revert vs. induction ts as [| t ts IH]; intros [| v vs]; cbn; [done .. |].
  f_equal. apply IH.
Qed.

(** A point is malformed exactly when reading its two series raises. *)
Lemma point_series_Raise city_data :
  malformed_point city_data <-> exists e, point_series city_data = Raise e.
Proof.
  unfold point_series. split.
  - intros H; destruct H as
      [v Hv | kvs Hh | kvs h Hh Ho | kvs hk Hh Ht | kvs hk Hh Ht
      | kvs hk v Hh Ht Hi | kvs hk v Hh Ht Hi ].
    + destruct v; try discriminate; eauto.
    + cbn. rewrite Hh. eauto.
    + cbn. rewrite Hh. cbn. destruct h; try discriminate; eauto.
    + cbn. rewrite Hh. cbn. rewrite Ht. eauto.
    + cbn. rewrite Hh. cbn. rewrite Ht.
      destruct (dict_get "time" hk); cbn; eauto.
    + cbn. rewrite Hh. cbn. rewrite Ht. cbn.
      destruct (dict_get "temperature_2m" hk); cbn; [|eauto].
      destruct v; try discriminate; cbn; eauto.
    + cbn. rewrite Hh. cbn. rewrite Ht. cbn.
      destruct (dict_get "time" hk) as [times|]; cbn; [|eauto].
      destruct (iter times); cbn; [|eauto].
      destruct v; try discriminate; cbn; eauto.
  - intros [e He]. destruct city_data as [| b | x | s | xs | kvs];
      try (by apply point_not_object).
    cbn in He. destruct (dict_get "hourly" kvs) as [h|] eqn:Hh;
      [|by apply hourly_missing].
    cbn in He. destruct h as [| b | x | s | xs | hk];
      try (by eapply hourly_not_object).
    cbn in He. destruct (dict_get "time" hk) as [times|] eqn:Ht;
      [|by eapply time_missing].
    cbn in He. destruct (dict_get "temperature_2m" hk) as [temps|] eqn:Hv;
      [|by eapply temperature_missing].
    cbn in He. destruct (iterable times) eqn:It;
      [|by eapply time_not_iterable].
    destruct (iterable temps) eqn:Iv;
      [|by eapply temperature_not_iterable].
    destruct times; try discriminate; destruct temps; discriminate.
Qed.

(** The loop over points that can all be read, within the catalogue: the
    rows of the points, one point after the other. *)
Lemma fetch_loop_ok data_list : forall payloads i acc,
  Forall2 (fun cd p => point_series cd = Ok p) data_list payloads ->
  i + length data_list <= length cities ->
  fetch_loop i data_list acc =
  Ok (acc ++ concat (imap (fun k p => point_rows (i + k) p.1 p.2) payloads)).
Proof.
  induction data_list as [| cd rest IH]; intros payloads i acc Hall Hlen.
  - apply Forall2_nil_inv_l in Hall as ->. cbn. by rewrite app_nil_r.
  - apply Forall2_cons_inv_l in Hall as (p & payloads' & Hp & Hall & ->).
    cbn [length] in Hlen.
    destruct (lookup_lt_is_Some_2 cities i) as [c Hc]; [lia|].
    rewrite fetch_loop_cons, (list_getitem_city_names i c Hc), bind_Ok.
    rewrite Hp, bind_Ok, (append_records_rows i c), bind_Ok by done.
    rewrite (IH payloads' (S i)) by (done || lia).
    rewrite imap_cons. cbn [concat]. rewrite <- app_assoc, Nat.add_0_r.
    do 4 f_equal. apply imap_ext. intros k p' _. cbn. f_equal. lia.
Qed.

(** The loop raises when it meets a malformed point or runs out of
    catalogue entries, whatever it has accumulated. *)
Lemma fetch_loop_Raise data_list : forall i acc,
  i <= length cities ->
  Exists malformed_point data_list \/ length cities < i + length data_list ->
  exists e, fetch_loop i data_list acc = Raise e.
Proof.
  induction data_list as [| cd rest IH]; intros i acc Hi Hbad.
  - destruct Hbad as [Hbad | Hlen]; [by apply Exists_nil in Hbad|].
    cbn [length] in Hlen. lia.
  - rewrite fetch_loop_cons.
    destruct (cities !! i) as [c|] eqn:Hc;
      [| rewrite list_getitem_city_names_None by done; eauto].
    rewrite (list_getitem_city_names i c Hc), bind_Ok.
    destruct (point_series cd) as [p | e] eqn:Hp; [| eauto].
    rewrite bind_Ok, (append_records_rows i c), bind_Ok by done.
    apply IH; [by apply lookup_lt_Some in Hc|].
    destruct Hbad as [Hbad | Hlen].
    + apply Exists_cons in Hbad as [Hbad | Hbad]; [|by left].
      apply point_series_Raise in Hbad as [e He]. congruence.
    + right. cbn [length] in Hlen. lia.
Qed.

(** Conversely, a loop that raises met a malformed point or ran out of
    catalogue entries. *)
Lemma fetch_loop_Raise_inv data_list : forall i acc e,
  fetch_loop i data_list acc = Raise e ->
  Exists malformed_point data_list \/ length cities < i + length data_list.
Proof.
  induction data_list as [| cd rest IH]; intros i acc e; [done|].
  rewrite fetch_loop_cons.
  destruct (cities !! i) as [c|] eqn:Hc.
  - rewrite (list_getitem_city_names i c Hc), bind_Ok.
    destruct (point_series cd) as [p | e'] eqn:Hp.
    + rewrite bind_Ok, (append_records_rows i c), bind_Ok by done.
      intros [Hbad | Hlen]%IH; [left; by apply Exists_cons_tl | right; cbn [length]; lia].
    + intros _. left. apply Exists_cons_hd, point_series_Raise. eauto.
  - intros _. right. apply lookup_ge_None in Hc. cbn [length]. lia.
Qed.

Lemma fetch_try_error_status status body :
  (400 <= status < 600)%Z ->
  fetch_try (Reply status body) = Raise (HTTPError status).
Proof.
  intros Hs. unfold fetch_try, requests_get, raise_for_status.
  rewrite bind_Ok. cbn [fst].
  destruct (Z.leb_spec 400 status), (Z.ltb_spec status 600); try lia; reflexivity.
Qed.

Lemma fetch_try_Reply status data :
  ~ (400 <= status < 600)%Z ->
  fetch_try (Reply status (Some data)) = fetch_loop 0 (data_list_of data) [].
Proof.
  intros Hs. unfold fetch_try, requests_get, raise_for_status, response_json.
  rewrite bind_Ok. cbn [fst snd].
  destruct (Z.leb_spec 400 status), (Z.ltb_spec status 600); try lia; reflexivity.
Qed.

(** C8, as the code has it.  The fetch fails exactly on the replies on
    which the body of the [try] raises: no response, a status from 400 to
    599, a body that is not JSON, a point that is not an object or lacks
    [hourly], [hourly.time] or [hourly.temperature_2m], a series that cannot
    be iterated, or more points than the catalogue.  On these the caller
    receives the empty frame together with exactly one error message, which
    carries the exception raised; the rows accumulated before the failure
    are never returned.  Every other reply, among them a status outside
    400 to 599 and a series that is a string or an object, gives a frame
    and no message. *)
Theorem fetch_failure_spec (reply : http_reply) :
  (failing_fetch reply ->
     exists e, fetch_try reply = Raise e /\
               fetch_forecast_data reply = ([], [st_error e])) /\
  (~ failing_fetch reply ->
     exists all_records, fetch_forecast_data reply = (all_records, [])) /\
  (forall e, fetch_try reply = Raise e ->
     fetch_forecast_data reply = ([], [st_error e])).
Proof.
  assert (Hraise : forall e, fetch_try reply = Raise e ->
                             fetch_forecast_data reply = ([], [st_error e])).
  { intros e He. unfold fetch_forecast_data. by rewrite He. }
  split; [|split; [|exact Hraise]].
  - intros Hfail.
    assert (exists e, fetch_try reply = Raise e) as [e He]; [|eauto].
    destruct Hfail as [cause | status body Hs | status | status data Hbad
                      | status data Hlen].
    + eauto.
    + rewrite fetch_try_error_status by done. eauto.
    + unfold fetch_try, requests_get, raise_for_status, response_json.
      rewrite bind_Ok. cbn [fst snd].
      destruct (_ && _); eauto.
    + destruct (decide (400 <= status < 600)%Z) as [Hs | Hs].
      * rewrite fetch_try_error_status by done. eauto.
      * rewrite fetch_try_Reply by done. apply fetch_loop_Raise; [lia | by left].
    + destruct (decide (400 <= status < 600)%Z) as [Hs | Hs].
      * rewrite fetch_try_error_status by done. eauto.
      * rewrite fetch_try_Reply by done. apply fetch_loop_Raise; [lia | by right].
  - intros Hok. unfold fetch_forecast_data.
    destruct (fetch_try reply) as [all_records | e] eqn:E; [eauto|].
    exfalso. apply Hok. destruct reply as [cause | status [data|]].
    + apply transport_failure.
    + destruct (decide (400 <= status < 600)%Z) as [Hs | Hs];
        [by apply error_status|].
      rewrite fetch_try_Reply in E by done.
      apply fetch_loop_Raise_inv in E as [Hbad | Hlen];
        [by apply malformed_fields | apply surplus_points; lia].
    + apply undecodable_body.
Qed.

(** A second point without temperatures discards the rows of the first. *)
Lemma fetch_failure_drops_rows :
  fetch_forecast_data
    (Reply 200 (Some (JArr
       [point_object [JStr "2024-01-01T00:00"] [JNum (Float.of_decimal 15 10)];
        JObj [("hourly", JObj [("time", JArr [JStr "2024-01-01T00:00"])])]])))
  = ([], [st_error (KeyError "temperature_2m")]).
Proof. vm_compute. reflexivity. Qed.

(** C8 as worded does not hold: a malformed [hourly.time] (a string where
    the contract has a list of timestamps) and a non-success status (302)
    are not failures of the fetch.  The first reply yields one row per
    character of the string, the second the rows of its body; neither
    yields an error message. *)
Lemma fetch_failure_counterexample :
  point_payload string_series_point = None /\
  fetch_forecast_data (Reply 200 (Some string_series_point))
  = ([mk_row "Sapporo" (Float.of_decimal 430618 10000)
        (Float.of_decimal 1413545 10000) (JStr "a") JNull;
      mk_row "Sapporo" (Float.of_decimal 430618 10000)
        (Float.of_decimal 1413545 10000) (JStr "b") JNull], []) /\
  fetch_forecast_data
    (Reply 302 (Some (JArr
       [point_object [JStr "2024-01-01T00:00"] [JNum (Float.of_int 1)]])))
  = ([mk_row "Sapporo" (Float.of_decimal 430618 10000)
        (Float.of_decimal 1413545 10000) (JStr "2024-01-01T00:00")
        (JNum (Float.of_int 1))], []).
Proof. repeat split; vm_compute; reflexivity. Qed.

(** A series that is a string is iterated character by character, and is
    not taken for a malformed field. *)
Lemma fetch_string_series :
  fetch_forecast_data
    (Reply 200 (Some (JObj [("hourly",
       JObj [("time", JStr "ab");
             ("temperature_2m", JArr [JNull; JNull; JNull])])])))
  = ([mk_row "Sapporo" (Float.of_decimal 430618 10000)
        (Float.of_decimal 1413545 10000) (JStr "a") JNull;
      mk_row "Sapporo" (Float.of_decimal 430618 10000)
        (Float.of_decimal 1413545 10000) (JStr "b") JNull], []).
Proof. vm_compute. reflexivity. Qed.



Lemma point_payload_series city_data p :
  point_payload city_data = Some p -> point_series city_data = Ok p.
Proof.
  unfold point_payload, point_series.
  destruct city_data as [| | | | | kvs]; try discriminate. cbn.
  destruct (dict_get "hourly" kvs) as [[| | | | | hk] |]; try discriminate. cbn.
  destruct (dict_get "time" hk) as [[| | | | ts |] |]; try discriminate.
  destruct (dict_get "temperature_2m" hk) as [[| | | | vs |] |]; try discriminate.
  by intros [= <-].
Qed.

(** A response of contract-shaped points, no more than the catalogue has,
    with a status that is no error: the frame is the rows of the points in
    turn, and nothing is reported. *)
Lemma fetch_well_formed status data_list payloads :
  ~ (400 <= status < 600)%Z ->
  length data_list <= length cities ->
  Forall2 (fun cd p => point_payload cd = Some p) data_list payloads ->
  fetch_forecast_data (Reply status (Some (JArr data_list))) =
  (concat (imap (fun k p => point_rows k p.1 p.2) payloads), []).
Proof.
  intros Hs Hlen Hall. unfold fetch_forecast_data.
  rewrite fetch_try_Reply by done. cbn [data_list_of].
  rewrite (fetch_loop_ok data_list payloads 0 []); [done | | done].
  eapply Forall2_impl; [exact Hall|]. intros cd p. apply point_payload_series.
Qed.

Lemma length_point_rows k ts vs :
  k < length cities ->
  length (point_rows k ts vs) = length ts `min` length vs.
Proof.
  intros [c Hc]%lookup_lt_is_Some_2. unfold point_rows. rewrite Hc.
  apply length_zip_with.
Qed.

Lemma lookup_point_rows k ts vs j r :
  point_rows k ts vs !! j = Some r ->
  ts !! j = Some (Time r) /\ vs !! j = Some (Temperature r) /\
  city_names !! k = Some (City r) /\
  lats !! k = Some (lat r) /\ lons !! k = Some (lon r).
Proof.
  unfold point_rows, city_names, lats, lons. rewrite !list_lookup_fmap.
  destruct (cities !! k) as [c|]; [|done].
  intros (t & v & -> & Ht & Hv)%lookup_zip_with_Some. done.
Qed.

(** C10. For a response of contract-shaped points (status no error, no more
    points than the catalogue), the fetch reports nothing and returns the
    rows of the points one point after the other; the point whose series
    have lengths [m] and [n] contributes [min m n] rows, row [j] pairing
    entry [j] of the timestamps with entry [j] of the temperatures under
    the point's catalogue name and coordinates.  Each point's rows are
    computed from its own series only, whatever the lengths elsewhere. *)
Theorem fetch_zip_truncates status data_list payloads :
  ~ (400 <= status < 600)%Z ->
  length data_list <= length cities ->
  Forall2 (fun cd p => point_payload cd = Some p) data_list payloads ->
  fetch_forecast_data (Reply status (Some (JArr data_list))) =
    (concat (imap (fun k p => point_rows k p.1 p.2) payloads), []) /\
  forall k p, payloads !! k = Some p ->
    length (point_rows k p.1 p.2) = length p.1 `min` length p.2 /\
    forall j r, point_rows k p.1 p.2 !! j = Some r ->
      p.1 !! j = Some (Time r) /\ p.2 !! j = Some (Temperature r) /\
      city_names !! k = Some (City r) /\
      lats !! k = Some (lat r) /\ lons !! k = Some (lon r).
Proof.
  intros Hs Hlen Hall. split; [by apply fetch_well_formed|].
  intros k p Hk. split.
  - apply length_point_rows. apply lookup_lt_Some in Hk.
    apply Forall2_length in Hall. lia.
  - intros j r Hr. by apply lookup_point_rows in Hr.
Qed.

Lemma fetch_zip_truncates_witness :
  fetch_forecast_data (Reply 200 (Some (JArr sample_points))) =
    (concat (imap (fun k p => point_rows k p.1 p.2) sample_payloads), []) /\
  forall k p, sample_payloads !! k = Some p ->
    length (point_rows k p.1 p.2) = length p.1 `min` length p.2 /\
    forall j r, point_rows k p.1 p.2 !! j = Some r ->
      p.1 !! j = Some (Time r) /\ p.2 !! j = Some (Temperature r) /\
      city_names !! k = Some (City r) /\
      lats !! k = Some (lat r) /\ lons !! k = Some (lon r).
Proof.
  apply (fetch_zip_truncates 200 sample_points sample_payloads).
  - lia.
  - vm_compute. lia.
  - repeat constructor.
Defined.

Lemma city_names_NoDup : NoDup city_names.
Proof. apply (bool_decide_unpack _). vm_compute. reflexivity. Qed.

(** The rows of point [k'] that carry the name of point [k]. *)
Lemma filter_point_rows k k' c ts vs :
  cities !! k = Some c ->
  filter (fun r : raw_record => City r = c.1) (point_rows k' ts vs) =
  if decide (k' = k) then point_rows k ts vs else [].
Proof.
  intros Hc. unfold point_rows at 1.
  destruct (cities !! k') as [c'|] eqn:Hc'.
  - destruct (decide (k' = k)) as [-> | Hne].
    + unfold point_rows. rewrite Hc. rewrite Hc' in Hc. injection Hc as ->.
      revert vs. induction ts as [| t ts IH]; intros [| v vs];
        cbn [zip_with]; try done.
      rewrite filter_cons_True by done. f_equal. apply IH.
    + assert (c'.1 ≠ c.1) as Hname.
      { intros Heq. apply Hne.
        apply (NoDup_lookup city_names k' k c'.1 city_names_NoDup);
          unfold city_names; rewrite list_lookup_fmap.
        - by rewrite Hc'.
        - by rewrite Hc, Heq. }
      revert vs. induction ts as [| t ts IH]; intros [| v vs];
        cbn [zip_with]; try done.
      rewrite filter_cons_False by done. apply IH.
  - destruct (decide (k' = k)) as [-> | Hne]; [congruence | done].
Qed.

Lemma filter_concat_imap {A B} (P : B -> Prop) `{!forall x, Decision (P x)}
    (f : nat -> A -> list B) (l : list A) :
  filter P (concat (imap f l)) = concat (imap (fun j x => filter P (f j x)) l).
Proof.
  revert f. induction l as [| x l IH]; intros f; [done|].
  rewrite !imap_cons. cbn [concat]. rewrite filter_app, IH. done.
Qed.

Lemma concat_imap_nil {A B} (l : list A) :
  concat (imap (fun _ _ => @nil B) l) = [].
Proof.
  induction l as [| y l IH]; [done|]. rewrite imap_cons. exact IH.
Qed.

Lemma concat_imap_single {A B} (g : A -> list B) (l : list A) : forall k,
  concat (imap (fun j x => if decide (j = k) then g x else []) l) =
  match l !! k with
  | Some x => g x
  | None => []
  end.
Proof.
  induction l as [| x l IH]; intros k; [done|].
  rewrite imap_cons. cbn [concat]. destruct k as [| k]; cbn [lookup list_lookup].
  - rewrite decide_True by done.
    rewrite (imap_ext _ (fun _ _ => [])) by done.
    by rewrite concat_imap_nil, app_nil_r.
  - rewrite decide_False by done. cbn [app]. rewrite <- IH.
    f_equal. apply imap_ext. intros j y _. cbn.
    destruct (decide (j = k)) as [-> | Hne].
    + by rewrite decide_True.
    + rewrite decide_False; [done | lia].
Qed.

(** C3, as the code has it.  In a response of contract-shaped points
    (status no error, no more points than the catalogue), a point whose
    timestamp and temperature series differ in length causes no failure:
    the fetch reports nothing, and the rows it returns under that point's
    name are as many as the shorter series has entries, fewer than the
    longer one has. *)
Theorem fetch_length_mismatch status data_list payloads k ts vs name :
  ~ (400 <= status < 600)%Z ->
  length data_list <= length cities ->
  Forall2 (fun cd p => point_payload cd = Some p) data_list payloads ->
  payloads !! k = Some (ts, vs) ->
  length ts ≠ length vs ->
  city_names !! k = Some name ->
  (fetch_forecast_data (Reply status (Some (JArr data_list)))).2 = [] /\
  length (filter (fun r : raw_record => City r = name)
            (fetch_forecast_data (Reply status (Some (JArr data_list)))).1)
    = length ts `min` length vs /\
  length ts `min` length vs < length ts `max` length vs.
Proof.
  intros Hs Hlen Hall Hk Hne Hname.
  rewrite (fetch_well_formed status data_list payloads) by done. cbn [fst snd].
  split; [done|]. split; [|lia].
  unfold city_names in Hname. rewrite list_lookup_fmap in Hname.
  destruct (cities !! k) as [c|] eqn:Hc; [|done]. injection Hname as <-.
  rewrite filter_concat_imap.
  rewrite (imap_ext _ (fun j p => if decide (j = k) then point_rows k p.1 p.2 else []));
    [| intros j p _; by apply filter_point_rows].
  rewrite concat_imap_single, Hk. cbn [fst snd].
  apply length_point_rows. by apply lookup_lt_Some in Hc.
Qed.

Lemma fetch_length_mismatch_witness :
  (fetch_forecast_data (Reply 200 (Some (JArr sample_points)))).2 = [] /\
  length (filter (fun r : raw_record => City r = "Aomori")
            (fetch_forecast_data (Reply 200 (Some (JArr sample_points)))).1)
    = length [JStr "2024-01-01T00:00"]
        `min` length [JNum (Float.of_int 3); JNum (Float.of_int 4)] /\
  length [JStr "2024-01-01T00:00"]
    `min` length [JNum (Float.of_int 3); JNum (Float.of_int 4)]
  < length [JStr "2024-01-01T00:00"]
    `max` length [JNum (Float.of_int 3); JNum (Float.of_int 4)].
Proof.
  apply (fetch_length_mismatch 200 sample_points sample_payloads 1).
  - lia.
  - vm_compute. lia.
  - repeat constructor.
  - reflexivity.
  - vm_compute. lia.
  - reflexivity.
Defined.

(** A point with two timestamps and one temperature: the fetch does not
    fail, it returns one row and reports nothing. *)
Lemma fetch_length_mismatch_counterexample :
  point_payload mismatched_point
    = Some ([JStr "2024-01-01T00:00"; JStr "2024-01-01T01:00"],
            [JNum (Float.of_decimal 15 10)]) /\
  fetch_forecast_data (Reply 200 (Some (JArr [mismatched_point]))) =
    ([mk_row "Sapporo" (Float.of_decimal 430618 10000)
        (Float.of_decimal 1413545 10000)
        (JStr "2024-01-01T00:00") (JNum (Float.of_decimal 15 10))], []).
Proof. split; vm_compute; reflexivity. Qed.

End Fetch.

(** ** The pipeline on a sample response *)

(** Two points with three hours each; selecting the second hour gives two
    encoded rows, one per point. *)
Lemma pipeline_sample :
  (full_df ← typed_frame (fetch_forecast_data sample_reply).1;
   Some (time_options full_df,
         (fun r => (City (base r), elevation r, color r))
           <$> snapshot full_df "2024-01-01T01:00"))
  = Some (["2024-01-01T00:00"; "2024-01-01T01:00"; "2024-01-01T02:00"],
          [("Sapporo", Float.of_int 30000, [0; 0; 255; 200]%Z);
           ("Aomori", Float.of_int 90000, [255; 0; 0; 200]%Z)]).
Proof. vm_compute. reflexivity. Qed.

(** * Further properties of the code *)

(** ** The frame of any reply *)

Section FetchMore.

(** A loop that ends normally read every point, stayed within the
    catalogue, and appended the rows of the points in turn. *)
Lemma fetch_loop_Ok_inv data_list : forall i acc rows,
  i <= length cities ->
  fetch_loop i data_list acc = Ok rows ->
  exists payloads,
    Forall2 (fun cd p => point_series cd = Ok p) data_list payloads /\
    i + length data_list <= length cities /\
    rows = acc ++ concat (imap (fun k p => point_rows (i + k) p.1 p.2) payloads).
Proof.
  induction data_list as [| cd rest IH]; intros i acc rows Hi.
  - cbn [fetch_loop]. intros [= <-]. exists []. cbn [length].
    split; [constructor|]. split; [lia|]. by rewrite app_nil_r.
  - rewrite fetch_loop_cons.
    destruct (cities !! i) as [c|] eqn:Hc;
      [| by rewrite list_getitem_city_names_None].
    rewrite (list_getitem_city_names i c Hc), bind_Ok.
    destruct (point_series cd) as [p | e] eqn:Hp; [|done].
    rewrite bind_Ok, (append_records_rows i c), bind_Ok by done.
    intros Hrest. apply lookup_lt_Some in Hc.
    apply IH in Hrest as (payloads & Hall & Hlen & ->); [|lia].
    exists (p :: payloads). split; [by constructor|].
    split; [cbn [length]; lia|].
    rewrite imap_cons. cbn [concat]. rewrite <- app_assoc, Nat.add_0_r.
    do 3 f_equal. apply imap_ext. intros k p' _. cbn. f_equal. lia.
Qed.

(** Whatever the reply, the frame is made of per-point blocks. *)
Lemma fetch_frame_blocks reply :
  exists payloads : list (list json * list json),
    length payloads <= length cities /\
    (fetch_forecast_data reply).1 =
    concat (imap (fun k p => point_rows k p.1 p.2) payloads).
Proof.
  unfold fetch_forecast_data.
  destruct (fetch_try reply) as [rows | e] eqn:E;
    [| exists []; split; [cbn [length]; lia | done]].
  unfold fetch_try in E.
  destruct (requests_get reply) as [response | e]; [|done].
  rewrite bind_Ok in E.
  destruct (raise_for_status response); [|done]. rewrite bind_Ok in E.
  destruct (response_json response) as [data | e]; [|done]. rewrite bind_Ok in E.
  apply fetch_loop_Ok_inv in E as (payloads & Hall & Hlen & ->); [|lia].
  exists payloads. apply Forall2_length in Hall. split; [lia | done].
Qed.

Lemma elem_of_concat {A} (x : A) (ls : list (list A)) :
  x ∈ concat ls <-> exists l, x ∈ l /\ l ∈ ls.
Proof.
  induction ls as [| l ls IH]; cbn [concat].
  - split; [by intros ?%elem_of_nil | by intros (l & _ & ?%elem_of_nil)].
  - rewrite elem_of_app, IH. split.
    + intros [Hx | (l' & Hx & Hl')]; [exists l | exists l'];
        rewrite elem_of_cons; auto.
    + intros (l' & Hx & [-> | Hl']%elem_of_cons); [by left | right; eauto].
Qed.

Lemma point_rows_City k ts vs :
  City <$> point_rows k ts vs =
  match city_names !! k with
  | Some name => replicate (length ts `min` length vs) name
  | None => []
  end.
Proof.
  unfold point_rows, city_names. rewrite list_lookup_fmap.
  destruct (cities !! k) as [c|]; [|done]. cbn.
  revert vs. induction ts as [| t ts IH]; intros [| v vs]; cbn; try done.
  f_equal. apply IH.
Qed.

Lemma concat_point_rows_City (payloads : list (list json * list json)) : forall i,
  City <$> concat (imap (fun k p => point_rows (i + k) p.1 p.2) payloads) =
  concat (zip_with replicate
            ((fun p => length p.1 `min` length p.2) <$> payloads)
            (drop i city_names)).
Proof.
  induction payloads as [| p payloads IH]; intros i; [done|].
  rewrite imap_cons. cbn [concat]. rewrite fmap_app, Nat.add_0_r, point_rows_City.
  rewrite (imap_ext _ (fun k p => point_rows (S i + k) p.1 p.2))
    by (intros k p' _; cbn; f_equal; lia).
  rewrite IH. rewrite fmap_cons.
  destruct (city_names !! i) as [name|] eqn:Hn.
  - rewrite (drop_S _ name i Hn). done.
  - rewrite (drop_ge city_names i) by (by apply lookup_ge_None).
    rewrite (drop_ge city_names (S i)) by (apply lookup_ge_None in Hn; lia).
    by destruct payloads.
Qed.

(** X1. Whatever the reply, every row of the returned frame carries the
    name, latitude and longitude of one catalogue entry, and the rows come
    grouped by point in catalogue order: the City column is some number of
    copies of the first city name, then of the second, and so on. *)
Theorem fetch_frame_invariant (reply : http_reply) :
  Forall (fun r : raw_record => exists i,
            city_names !! i = Some (City r) /\
            lats !! i = Some (lat r) /\ lons !! i = Some (lon r))
         (fetch_forecast_data reply).1 /\
  exists counts,
    City <$> (fetch_forecast_data reply).1 =
    concat (zip_with replicate counts city_names).
Proof.
  destruct (fetch_frame_blocks reply) as (payloads & Hlen & ->). split.
  - apply Forall_forall. intros r Hr.
    apply elem_of_concat in Hr as (block & Hr & Hblock).
    apply elem_of_lookup_imap in Hblock as (k & p & -> & Hp).
    apply list_elem_of_lookup in Hr as [j Hj].
    apply lookup_point_rows in Hj. exists k. tauto.
  - exists ((fun p => length p.1 `min` length p.2) <$> payloads).
    pose proof (concat_point_rows_City payloads 0) as H.
    rewrite drop_0 in H. exact H.
Qed.
End FetchMore.

(** ** Which failure is reported *)


Section FetchErrors.

(** The loop runs through a prefix of readable points within the catalogue
    and goes on with the rows of that prefix accumulated. *)
Lemma fetch_loop_app good : forall payloads tail i acc,
  Forall2 (fun cd p => point_series cd = Ok p) good payloads ->
  i + length good <= length cities ->
  fetch_loop i (good ++ tail) acc =
  fetch_loop (i + length good) tail
    (acc ++ concat (imap (fun k p => point_rows (i + k) p.1 p.2) payloads)).
Proof.
  induction good as [| cd good IH]; intros payloads tail i acc Hall Hlen.
  - apply Forall2_nil_inv_l in Hall as ->. cbn [app length concat imap].
    by rewrite Nat.add_0_r, app_nil_r.
  - apply Forall2_cons_inv_l in Hall as (p & payloads' & Hp & Hall & ->).
    cbn [length] in Hlen. cbn [app].
    destruct (lookup_lt_is_Some_2 cities i) as [c Hc]; [lia|].
    rewrite fetch_loop_cons, (list_getitem_city_names i c Hc), bind_Ok.
    rewrite Hp, bind_Ok, (append_records_rows i c), bind_Ok by done.
    rewrite (IH payloads' tail (S i)) by (done || lia).
    rewrite imap_cons. cbn [concat length]. rewrite <- app_assoc, Nat.add_0_r.
    replace (S i + length good) with (i + S (length good)) by lia.
    do 4 f_equal. apply imap_ext. intros k p' _. cbn. f_equal. lia.
Qed.

Lemma readable_payloads (good : list json) :
  Forall (fun cd => ~ malformed_point cd) good ->
  exists payloads, Forall2 (fun cd p => point_series cd = Ok p) good payloads.
Proof.
  induction 1 as [| cd good Hcd _ [payloads IH]]; [by exists []|].
  destruct (point_series cd) as [p | e] eqn:Hp.
  - exists (p :: payloads). by constructor.
  - destruct Hcd. apply point_series_Raise. eauto.
Qed.

(** X2. When the points before it are well formed and within the
    catalogue, the exception raised while reading a point is the one the
    fetch reports, with the empty frame: the rows of the earlier points are
    dropped and the later points are not looked at. *)
Theorem fetch_first_error status good bad rest e :
  ~ (400 <= status < 600)%Z ->
  Forall (fun cd => ~ malformed_point cd) good ->
  length good < length cities ->
  point_series bad = Raise e ->
  fetch_forecast_data (Reply status (Some (JArr (good ++ bad :: rest))))
  = ([], [st_error e]).
Proof.
  intros Hs Hgood Hlen Hbad.
  destruct (readable_payloads good Hgood) as [payloads Hall].
  unfold fetch_forecast_data. rewrite fetch_try_Reply by done.
  cbn [data_list_of]. rewrite (fetch_loop_app good payloads) by (done || lia).
  rewrite fetch_loop_cons.
  destruct (lookup_lt_is_Some_2 cities (0 + length good)) as [c Hc]; [lia|].
  rewrite (list_getitem_city_names _ c Hc), bind_Ok, Hbad. reflexivity.
Qed.

Lemma fetch_first_error_witness :
  fetch_forecast_data
    (Reply 200 (Some (JArr (sample_points ++ JNull :: [JBool true]))))
  = ([], [st_error (TypeError JNull)]).
Proof.
  apply (fetch_first_error 200 sample_points JNull [JBool true] (TypeError JNull)).
  - lia.
  - repeat constructor; intros [e He]%point_series_Raise; discriminate.
  - vm_compute. lia.
  - reflexivity.
Defined.

(** X3. When the status is not an error status (not from 400 to 599) and
    the response is a list whose first points, as many as the catalogue has
    cities, are all readable (none of them makes the loop body raise), any
    further point makes the fetch fail with [IndexError] at the first
    surplus point, whatever that point and the ones after it hold: the
    frame is empty and the one message carries [IndexError]. *)
Theorem fetch_surplus_point status good extra rest :
  ~ (400 <= status < 600)%Z ->
  Forall (fun cd => ~ malformed_point cd) good ->
  length good = length cities ->
  fetch_forecast_data (Reply status (Some (JArr (good ++ extra :: rest))))
  = ([], [st_error IndexError]).
Proof.
  intros Hs Hgood Hlen.
  destruct (readable_payloads good Hgood) as [payloads Hall].
  unfold fetch_forecast_data. rewrite fetch_try_Reply by done.
  cbn [data_list_of]. rewrite (fetch_loop_app good payloads) by (done || lia).
  rewrite fetch_loop_cons, list_getitem_city_names_None; [done|].
  apply lookup_ge_None. lia.
Qed.

Lemma fetch_surplus_point_witness :
  fetch_forecast_data (Reply 200 (Some (JArr (empty_points ++ JNull :: []))))
  = ([], [st_error IndexError]).
Proof.
  apply (fetch_surplus_point 200 empty_points JNull []).
  - lia.
  - repeat constructor; intros [e He]%point_series_Raise; discriminate.
  - reflexivity.
Defined.

(** Which exception a malformed point raises: the first access that fails. *)
Lemma point_series_cause :
  (forall v, is_object v = false -> point_series v = Raise (TypeError v)) /\
  (forall kvs, dict_get "hourly" kvs = None ->
     point_series (JObj kvs) = Raise (KeyError "hourly")) /\
  (forall kvs h, dict_get "hourly" kvs = Some h -> is_object h = false ->
     point_series (JObj kvs) = Raise (TypeError h)) /\
  (forall kvs hk, dict_get "hourly" kvs = Some (JObj hk) ->
     dict_get "time" hk = None ->
     point_series (JObj kvs) = Raise (KeyError "time")) /\
  (forall kvs hk times, dict_get "hourly" kvs = Some (JObj hk) ->
     dict_get "time" hk = Some times ->
     dict_get "temperature_2m" hk = None ->
     point_series (JObj kvs) = Raise (KeyError "temperature_2m")) /\
  (forall kvs hk times temps, dict_get "hourly" kvs = Some (JObj hk) ->
     dict_get "time" hk = Some times ->
     dict_get "temperature_2m" hk = Some temps ->
     iterable times = false ->
     point_series (JObj kvs) = Raise (TypeError times)) /\
  (forall kvs hk times temps, dict_get "hourly" kvs = Some (JObj hk) ->
     dict_get "time" hk = Some times ->
     dict_get "temperature_2m" hk = Some temps ->
     iterable times = true -> iterable temps = false ->
     point_series (JObj kvs) = Raise (TypeError temps)).
Proof.
  unfold point_series. repeat split.
  - intros v Hv. by destruct v.
  - intros kvs Hh. cbn. by rewrite Hh.
  - intros kvs h Hh Ho. cbn. rewrite Hh. cbn. by destruct h.
  - intros kvs hk Hh Ht. cbn. rewrite Hh. cbn. by rewrite Ht.
  - intros kvs hk times Hh Ht Hv. cbn. rewrite Hh. cbn. rewrite Ht. cbn.
    by rewrite Hv.
  - intros kvs hk times temps Hh Ht Hv Hi. cbn. rewrite Hh. cbn. rewrite Ht. cbn.
    rewrite Hv. cbn. by destruct times.
  - intros kvs hk times temps Hh Ht Hv Hi Hi'. cbn. rewrite Hh. cbn. rewrite Ht.
    cbn. rewrite Hv. cbn. destruct times; try done; by destruct temps.
Qed.

(** The checks before the loop come in order: without a response the cause
    is the transport error; an error status is reported whatever the body
    holds, even a well-formed one; a body that is not JSON is reported only
    when the status is no error.  The frame is empty in all three cases. *)
Lemma fetch_early_causes :
  (forall cause,
     fetch_forecast_data (NoReply cause) = ([], [st_error (RequestException cause)])) /\
  (forall status body, (400 <= status < 600)%Z ->
     fetch_forecast_data (Reply status body) = ([], [st_error (HTTPError status)])) /\
  (forall status, ~ (400 <= status < 600)%Z ->
     fetch_forecast_data (Reply status None) = ([], [st_error JSONDecodeError])).
Proof.
  split; [|split].
  - reflexivity.
  - intros status body Hs. unfold fetch_forecast_data.
    by rewrite fetch_try_error_status.
  - intros status Hs. unfold fetch_forecast_data, fetch_try, requests_get,
      raise_for_status, response_json.
    rewrite bind_Ok. cbn [fst snd].
    destruct (Z.leb_spec 400 status), (Z.ltb_spec status 600); try lia; reflexivity.
Qed.

End FetchErrors.


(** ** The index and the page *)

Section Page.

(** A column without repeated values is its own index. *)
Lemma unique_NoDup vs : NoDup vs -> unique vs = vs.
Proof.
  induction vs as [| v vs IH] using rev_ind; intros Hnd; [done|].
  apply NoDup_app in Hnd as (Hvs & Hv & _).
  rewrite unique_snoc, decide_False, IH; [done | done |].
  rewrite elem_of_unique. intros Hin. apply (Hv v Hin). by left.
Qed.

(** Values met before add nothing to the index. *)
Lemma unique_app_seen vs rest :
  (forall x, x ∈ rest -> x ∈ vs) -> unique (vs ++ rest) = unique vs.
Proof.
  induction rest as [| x rest IH] using rev_ind; intros Hsub.
  - by rewrite app_nil_r.
  - rewrite app_assoc, unique_snoc, decide_True.
    + apply IH. intros y Hy. apply Hsub. rewrite elem_of_app. by left.
    + rewrite elem_of_unique, elem_of_app. left. apply Hsub.
      rewrite elem_of_app. right. by left.
Qed.

(** X4. When the Time column starts with a list of distinct hours and all
    later rows repeat hours of that list (as when every point reports the
    hours of the first one), the temporal index is that list, in its
    order. *)
Theorem time_options_blocks (full_df : list ForecastRecord)
    (hours rest : list string) :
  NoDup hours ->
  (forall t, t ∈ rest -> t ∈ hours) ->
  Time <$> full_df = hours ++ rest ->
  time_options full_df = hours.
Proof.
  intros Hnd Hsub Hcol. unfold time_options.
  by rewrite Hcol, unique_app_seen, unique_NoDup.
Qed.

Lemma time_options_blocks_witness :
  time_options (uniform_frame sample_hour_strings sample_temps)
  = sample_hour_strings.
Proof.
  apply (time_options_blocks (uniform_frame sample_hour_strings sample_temps)
           sample_hour_strings sample_hour_strings).
  - apply (bool_decide_unpack _). vm_compute. reflexivity.
  - intros t Ht. exact Ht.
  - vm_compute. reflexivity.
Defined.

Lemma unique_loop_prefix vs : forall acc, exists s, unique_loop vs acc = acc ++ s.
Proof.
  induction vs as [| v vs IH]; intros acc; cbn [unique_loop].
  - exists []. by rewrite app_nil_r.
  - destruct (bool_decide (v ∈ acc)); [apply IH|].
    destruct (IH (acc ++ [v])) as [s ->]. exists (v :: s). by rewrite <- app_assoc.
Qed.

Lemma head_unique vs : head (unique vs) = head vs.
Proof.
  destruct vs as [| v vs]; [done|]. unfold unique. cbn [unique_loop].
  rewrite bool_decide_eq_false_2 by apply not_elem_of_nil. cbn [app].
  by destruct (unique_loop_prefix vs [v]) as [s ->].
Qed.

Lemma default_index_lookup (options : list string) now :
  options ≠ [] ->
  exists value,
    options !! default_index options now = Some value /\
    (current_hour_iso now ∈ options -> value = current_hour_iso now) /\
    ((current_hour_iso now ∉ options) -> head options = Some value).
Proof.
  intros Hne. unfold default_index.
  destruct (list_index options (current_hour_iso now)) as [i | e] eqn:E.
  - apply list_index_Ok in E as [Hi _]. exists (current_hour_iso now).
    split; [done|]. split; [done|]. intros Hout. destruct Hout.
    by apply list_elem_of_lookup_2 in Hi.
  - apply list_index_Raise in E as [_ Hout].
    destruct options as [| value options]; [done|]. exists value.
    split; [done|]. split; [done | done].
Qed.

(** On a frame with rows the array access of line 113 is in range. *)
Lemma page_body_rows (full_df : list ForecastRecord) (now : datetime)
    (select_slider : list string -> string -> string) :
  full_df ≠ [] ->
  exists value,
    page_body full_df now select_slider =
    Ok (MapView (time_options full_df) value
          (select_slider (time_options full_df) value)
          (snapshot full_df (select_slider (time_options full_df) value))) /\
    value ∈ time_options full_df /\
    (current_hour_iso now ∈ time_options full_df ->
       value = current_hour_iso now) /\
    ((current_hour_iso now ∉ time_options full_df) ->
       head (Time <$> full_df) = Some value).
Proof.
  intros Hne. unfold page_body.
  destruct full_df as [| r df]; [done|]. cbn [df_empty].
  assert (time_options (r :: df) ≠ []) as Hopts.
  { intros Hnil. assert (Time r ∈ time_options (r :: df)) as Hin.
    { unfold time_options. rewrite elem_of_unique, fmap_cons. by left. }
    rewrite Hnil in Hin. by apply elem_of_nil in Hin. }
  destruct (default_index_lookup _ now Hopts) as (value & Hv & Hin & Hout).
  exists value. unfold list_getitem. rewrite Hv, bind_Ok.
  split; [done|]. split; [by apply list_elem_of_lookup_2 in Hv|].
  split; [done|]. intros Hnot. rewrite <- (Hout Hnot).
  unfold time_options. by rewrite head_unique.
Qed.

(** X5. On a frame whose timestamps are strings and whose temperatures are
    floats, the array access [time_options[default_index]] never raises
    [IndexError].  On such a frame without rows the page shows the
    load-failure message.  On such a frame with rows the access is in
    range: the slider starts at an entry of the index, which is the current
    hour when the index has it and the timestamp of the first row
    otherwise, and the layer receives the snapshot of the timestamp the
    slider returns.  Frames with other cells, such as the null temperatures
    a response may carry, are outside this statement. *)
Theorem page_body_index_in_range (full_df : list ForecastRecord) (now : datetime)
    (select_slider : list string -> string -> string) :
  (full_df = [] -> page_body full_df now select_slider = Ok LoadFailed) /\
  (full_df ≠ [] ->
     exists value,
       page_body full_df now select_slider =
       Ok (MapView (time_options full_df) value
             (select_slider (time_options full_df) value)
             (snapshot full_df (select_slider (time_options full_df) value))) /\
       value ∈ time_options full_df /\
       (current_hour_iso now ∈ time_options full_df ->
          value = current_hour_iso now) /\
       ((current_hour_iso now ∉ time_options full_df) ->
          head (Time <$> full_df) = Some value)).
Proof.
  split; [by intros -> | apply page_body_rows].
Qed.

Lemma snapshot_nil_iff (full_df : list ForecastRecord) T :
  snapshot full_df T = [] <-> df_filtered full_df T = [].
Proof.
  unfold snapshot. rewrite encode_map. split.
  - apply fmap_nil_inv.
  - by intros ->.
Qed.

(** X6. The snapshot of a timestamp has rows exactly when the timestamp is
    an entry of the temporal index, so every slider position shows at least
    one column; each row of a snapshot is a row of the frame with that
    timestamp, coloured by [get_color] of its own temperature. *)
Theorem snapshot_nonempty_iff (full_df : list ForecastRecord) (T : string) :
  (snapshot full_df T ≠ [] <-> T ∈ time_options full_df) /\
  Forall (fun r => Time (base r) = T /\
                   color r = get_color (Temperature (base r)) /\
                   base r ∈ full_df)
         (snapshot full_df T).
Proof.
  split.
  - rewrite snapshot_nil_iff, df_filtered_filter. unfold time_options.
    rewrite elem_of_unique, list_elem_of_fmap. split.
    + intros Hne. destruct (filter _ full_df) as [| r l] eqn:E; [done|].
      assert (r ∈ filter (fun r => Time r = T) full_df) as Hr
        by (rewrite E; by left).
      apply list_elem_of_filter in Hr as [<- Hr]. eauto.
    + intros (r & -> & Hr) Hnil.
      by apply (filter_nil_not_elem_of _ _ r Hnil).
  - unfold snapshot. rewrite encode_map, Forall_fmap, df_filtered_filter.
    apply Forall_forall. intros r [Hr Hin]%list_elem_of_filter. cbn. done.
Qed.

(** X7. When the fetch raises, the page shows the error of the fetch and
    then the load-failure message, and no map.  The load-failure message is
    shown exactly when the frame has no rows, which also happens for a
    fetch that reported nothing (a response without points or hours). *)
Theorem script_load_failed (reply : http_reply) (now : datetime)
    (select_slider : list string -> string -> string) :
  (forall e, fetch_try reply = Raise e ->
     script reply now select_slider = Some ([st_error e], Ok LoadFailed)) /\
  ((fetch_forecast_data reply).1 = [] <->
   exists events, script reply now select_slider = Some (events, Ok LoadFailed)).
Proof.
  split.
  - intros e He. unfold script, fetch_forecast_data. by rewrite He.
  - unfold script. split.
    + intros ->. eauto.
    + intros [events Hs].
      destruct (fetch_forecast_data reply).1 as [| r df]; [done|].
      destruct (typed_frame (r :: df)) as [full_df|] eqn:E; [|done].
      cbn in Hs. injection Hs as _ Hs.
      destruct full_df as [| r' df'].
      * apply length_mapM in E. done.
      * destruct (page_body_rows (r' :: df') now select_slider)
          as (value & Hv & _); [done|]. congruence.
Qed.
(** A response that is the empty list: no error from the fetch, and the
    load-failure message all the same. *)
Lemma script_empty_response :
  script (Reply 200 (Some (JArr []))) sample_now slider_untouched
  = Some ([], Ok LoadFailed).
Proof. reflexivity. Qed.

(** A frame with a null temperature is not a frame of timestamps and
    floats: the page model does not describe it. *)
Lemma script_null_temperature now select_slider :
  typed_frame (fetch_forecast_data (Reply 200 (Some string_series_point))).1
  = None /\
  script (Reply 200 (Some string_series_point)) now select_slider = None.
Proof. split; reflexivity. Qed.

End Page.


(** ** The snapshots of the index entries *)

Section Cover.

Lemma sum_filter_cons {A} (f : A -> string) (r : A) (df : list A) (ts : list string) :
  sum_list ((fun t => length (filter (fun x => f x = t) (r :: df))) <$> ts) =
  sum_list ((fun t => if decide (f r = t) then 1 else 0) <$> ts) +
  sum_list ((fun t => length (filter (fun x => f x = t) df)) <$> ts).
Proof.
  induction ts as [| t ts IH]; [done|].
  rewrite !fmap_cons. cbn [sum_list]. rewrite IH.
  destruct (decide (f r = t)) as [Heq | Hne].
  - rewrite filter_cons_True by done. cbn [length]. unfold id. lia.
  - rewrite filter_cons_False by done. unfold id. lia.
Qed.

Lemma sum_indicator (x : string) (ts : list string) :
  NoDup ts -> x ∈ ts ->
  sum_list ((fun t => if decide (x = t) then 1 else 0) <$> ts) = 1.
Proof.
  induction 1 as [| t ts Ht Hnd IH]; intros Hin; [by apply elem_of_nil in Hin|].
  rewrite fmap_cons. cbn [sum_list].
  destruct (decide (x = t)) as [-> | Hne].
  - assert (sum_list ((fun t0 => if decide (t = t0) then 1 else 0) <$> ts) = 0) as ->;
      [|done].
    clear -Ht. induction ts as [| u ts IH]; [done|].
    apply not_elem_of_cons in Ht as [Hu Ht]. rewrite fmap_cons. cbn [sum_list].
    rewrite decide_False by done. by rewrite IH.
  - apply elem_of_cons in Hin as [-> | Hin]; [done|]. by rewrite IH.
Qed.

Lemma filter_lengths_cover {A} (f : A -> string) (df : list A) (ts : list string) :
  NoDup ts -> (forall r, r ∈ df -> f r ∈ ts) ->
  sum_list ((fun t => length (filter (fun x => f x = t) df)) <$> ts) = length df.
Proof.
  intros Hnd. induction df as [| r df IH]; intros Hin.
  - clear. induction ts as [| t ts IH]; [done|]. rewrite fmap_cons. by cbn.
  - rewrite sum_filter_cons, sum_indicator, IH; [done | | done |].
    + intros r' Hr'. apply Hin. by right.
    + apply Hin. by left.
Qed.

(** X13. The snapshots of the entries of the temporal index cover the frame
    without overlap: their row counts add up to the number of rows of the
    frame, and no row belongs to the snapshots of two different
    timestamps. *)
Theorem snapshots_cover_frame (full_df : list ForecastRecord) :
  sum_list ((fun T => length (snapshot full_df T)) <$> time_options full_df)
  = length full_df /\
  forall r T1 T2, r ∈ df_filtered full_df T1 -> r ∈ df_filtered full_df T2 -> T1 = T2.
Proof.
  split.
  - rewrite <- (filter_lengths_cover Time full_df (time_options full_df)).
    + f_equal. apply list_fmap_ext. intros _ T _.
      unfold snapshot. by rewrite encode_map, length_fmap, df_filtered_filter.
    + apply NoDup_unique_loop, NoDup_nil_2.
    + intros r Hr. unfold time_options. rewrite elem_of_unique.
      by apply list_elem_of_fmap_2.
  - intros r T1 T2. rewrite !df_filtered_filter, !list_elem_of_filter.
    intros [<- _] [<- _]. done.
Qed.
End Cover.

(** ** Responses in which every point reports the same hours *)

Section Uniform.

(** The typed view of the rows of a point whose cells are strings and
    floats. *)
Lemma typed_point_rows k (hours : list string) (temps : list float) :
  Forall2 (fun r r' => typed_row r = Some r')
    (point_rows k (JStr <$> hours) (JNum <$> temps)) (rows_at k hours temps).
Proof.
  unfold point_rows, rows_at. destruct (cities !! k) as [c|]; [|constructor].
  revert temps. induction hours as [| h hours IH]; intros [| x temps]; cbn;
    constructor; [done | apply IH].
Qed.

Lemma typed_blocks (payloads : list (list string * list float)) : forall i,
  Forall2 (fun r r' => typed_row r = Some r')
    (concat (imap (fun k (p : list json * list json) => point_rows (i + k) p.1 p.2)
               (json_payload <$> payloads)))
    (concat (imap (fun k p => rows_at (i + k) p.1 p.2) payloads)).
Proof.
  induction payloads as [| p payloads IH]; intros i; [constructor|].
  rewrite fmap_cons, !imap_cons. cbn [concat fst snd].
  apply Forall2_app; [apply typed_point_rows|].
  rewrite (imap_ext _ (fun k (p : list json * list json) => point_rows (S i + k) p.1 p.2))
    by (intros k p' _; cbn; f_equal; lia).
  rewrite (imap_ext (_ ∘ S) (fun k p => rows_at (S i + k) p.1 p.2))
    by (intros k p' _; cbn; f_equal; lia).
  apply IH.
Qed.

(** The typed frame of a response whose cells are strings and floats. *)
Lemma fetch_typed_frame status data_list
    (payloads : list (list string * list float)) :
  ~ (400 <= status < 600)%Z ->
  length data_list <= length cities ->
  Forall2 (fun cd p => point_payload cd = Some (json_payload p))
    data_list payloads ->
  (fetch_forecast_data (Reply status (Some (JArr data_list)))).2 = [] /\
  typed_frame (fetch_forecast_data (Reply status (Some (JArr data_list)))).1
  = Some (concat (imap (fun k p => rows_at k p.1 p.2) payloads)).
Proof.
  intros Hs Hlen Hall.
  rewrite (fetch_well_formed status data_list
             (json_payload <$> payloads)); [| done ..|].
  - split; [done|]. cbn [fst]. apply mapM_Some_2. apply (typed_blocks payloads 0).
  - apply Forall2_fmap_r. exact Hall.
Qed.

Lemma filter_zip_none (a : string) (b c : float) T (hours : list string) :
  T ∉ hours -> forall temps : list float,
  filter (fun r : ForecastRecord => Time r = T) (zip_with (mk_row a b c) hours temps) = [].
Proof.
  induction hours as [| h hours IH]; intros Hout [| x temps]; cbn [zip_with];
    try done.
  apply not_elem_of_cons in Hout as [Hne Hout].
  rewrite filter_cons_False by (cbn; congruence). by apply IH.
Qed.

Lemma filter_zip_hour (a : string) (b c : float) T (hours : list string) :
  NoDup hours -> forall j (temps : list float) v,
  hours !! j = Some T -> temps !! j = Some v ->
  filter (fun r : ForecastRecord => Time r = T) (zip_with (mk_row a b c) hours temps)
  = [mk_row a b c T v].
Proof.
  induction 1 as [| h hours Hh Hnd IH]; intros j temps v Hj Hv; [done|].
  destruct temps as [| x temps]; [done|]. cbn [zip_with].
  destruct j as [| j]; cbn in Hj, Hv.
  - injection Hj as ->. injection Hv as ->.
    rewrite filter_cons_True by done. f_equal. by apply filter_zip_none.
  - rewrite filter_cons_False.
    + by apply (IH j).
    + cbn. intros ->. apply Hh. by apply list_elem_of_lookup_2 in Hj.
Qed.

Lemma uniform_blocks_Time (hours : list string) (temps_list : list (list float)) : forall i,
  i + length temps_list <= length cities ->
  Forall (fun temps => length temps = length hours) temps_list ->
  Time <$> concat (imap (fun k temps => rows_at (i + k) hours temps) temps_list)
  = concat (replicate (length temps_list) hours).
Proof.
  induction temps_list as [| temps temps_list IH]; intros i Hlen Hall; [done|].
  apply Forall_cons in Hall as [Htemps Hall]. cbn [length] in Hlen.
  rewrite imap_cons. cbn [concat length replicate]. rewrite fmap_app. f_equal.
  - rewrite Nat.add_0_r. unfold rows_at.
    destruct (lookup_lt_is_Some_2 cities i) as [c ->]; [lia|].
    clear -Htemps. revert temps Htemps.
    induction hours as [| h hours IH]; intros [| x temps] Hl; cbn in *; try done.
    f_equal. apply IH. lia.
  - rewrite (imap_ext _ (fun k temps => rows_at (S i + k) hours temps))
      by (intros k p' _; cbn; f_equal; lia).
    apply IH; [lia | done].
Qed.

Lemma uniform_blocks_filter (hours : list string) (temps_list : list (list float)) j T :
  NoDup hours -> hours !! j = Some T ->
  forall i, i + length temps_list <= length cities ->
  Forall (fun temps => length temps = length hours) temps_list ->
  Forall2 (fun (r : ForecastRecord) temps =>
             Time r = T /\ temps !! j = Some (Temperature r))
    (filter (fun r : ForecastRecord => Time r = T)
       (concat (imap (fun k temps => rows_at (i + k) hours temps) temps_list)))
    temps_list /\
  City <$> filter (fun r : ForecastRecord => Time r = T)
       (concat (imap (fun k temps => rows_at (i + k) hours temps) temps_list))
  = take (length temps_list) (drop i city_names).
Proof.
  intros Hnd Hj.
  induction temps_list as [| temps temps_list IH]; intros i Hlen Hall.
  - split; [constructor | done].
  - apply Forall_cons in Hall as [Htemps Hall]. cbn [length] in Hlen.
    rewrite imap_cons. cbn [concat length]. rewrite filter_app, Nat.add_0_r.
    rewrite (imap_ext _ (fun k temps => rows_at (S i + k) hours temps))
      by (intros k p' _; cbn; f_equal; lia).
    destruct (IH (S i)) as [IH1 IH2]; [lia | done |].
    destruct (lookup_lt_is_Some_2 cities i) as [c Hc]; [lia|].
    destruct (lookup_lt_is_Some_2 temps j) as [v Hv].
    { rewrite Htemps. by apply lookup_lt_Some in Hj. }
    unfold rows_at at 1 3. rewrite Hc.
    rewrite (filter_zip_hour _ _ _ T hours Hnd j temps v Hj Hv).
    split.
    + cbn [app]. constructor; [done | exact IH1].
    + cbn [app]. rewrite fmap_cons, IH2. cbn [City].
      assert (city_names !! i = Some c.1) as Hn
        by (unfold city_names; by rewrite list_lookup_fmap, Hc).
      by rewrite (drop_S _ _ _ Hn).
Qed.

Lemma uniform_frame_Time (hours : list string) (temps_list : list (list float)) :
  length temps_list <= length cities ->
  Forall (fun temps => length temps = length hours) temps_list ->
  Time <$> uniform_frame hours temps_list
  = concat (replicate (length temps_list) hours).
Proof.
  intros Hlen Hall.
  exact (uniform_blocks_Time hours temps_list 0 Hlen Hall).
Qed.

Lemma uniform_frame_filter (hours : list string)
    (temps_list : list (list float)) j T :
  NoDup hours -> hours !! j = Some T ->
  length temps_list <= length cities ->
  Forall (fun temps => length temps = length hours) temps_list ->
  Forall2 (fun (r : ForecastRecord) temps =>
             Time r = T /\ temps !! j = Some (Temperature r))
    (filter (fun r : ForecastRecord => Time r = T) (uniform_frame hours temps_list))
    temps_list /\
  City <$> filter (fun r : ForecastRecord => Time r = T)
             (uniform_frame hours temps_list)
  = take (length temps_list) city_names.
Proof.
  intros Hnd Hj Hlen Hall.
  exact (uniform_blocks_filter hours temps_list j T Hnd Hj 0 Hlen Hall).
Qed.

Lemma uniform_frame_time_options (hours : list string)
    (temps_list : list (list float)) :
  NoDup hours -> temps_list ≠ [] ->
  length temps_list <= length cities ->
  Forall (fun temps => length temps = length hours) temps_list ->
  time_options (uniform_frame hours temps_list) = hours.
Proof.
  intros Hnd Hne Hlen Hall. unfold time_options.
  rewrite uniform_frame_Time by done.
  destruct temps_list as [| temps temps_list]; [done|].
  cbn [length replicate concat].
  rewrite unique_app_seen, unique_NoDup; [done | done |].
  intros x Hx. clear -Hx. induction (length temps_list) as [| n IH]; cbn in Hx.
  - by apply elem_of_nil in Hx.
  - apply elem_of_app in Hx as [Hx | Hx]; auto.
Qed.

(** X8. In a frame where each of at most thirteen points reports the same
    distinct hours with one temperature per hour, the temporal index is the
    list of hours, and the snapshot of hour number [j] has exactly one row
    per point, in catalogue order: row [k] carries the name of city [k],
    the selected timestamp and entry [j] of the temperatures of point
    [k]. *)
Theorem uniform_frame_snapshot (hours : list string)
    (temps_list : list (list float)) (j : nat) (T : string) :
  NoDup hours -> hours !! j = Some T ->
  length temps_list <= length cities ->
  Forall (fun temps => length temps = length hours) temps_list ->
  (temps_list ≠ [] -> time_options (uniform_frame hours temps_list) = hours) /\
  (fun r => City (base r)) <$> snapshot (uniform_frame hours temps_list) T
    = take (length temps_list) city_names /\
  Forall2 (fun r temps =>
             Time (base r) = T /\ temps !! j = Some (Temperature (base r)))
    (snapshot (uniform_frame hours temps_list) T) temps_list.
Proof.
  intros Hnd Hj Hlen Hall.
  destruct (uniform_frame_filter hours temps_list j T Hnd Hj Hlen Hall) as [H1 H2].
  split; [|split].
  - intros Hne. by apply uniform_frame_time_options.
  - unfold snapshot. rewrite encode_map, <- list_fmap_compose, df_filtered_filter.
    exact H2.
  - unfold snapshot. rewrite encode_map, Forall2_fmap_l, df_filtered_filter.
    exact H1.
Qed.

Lemma uniform_frame_snapshot_witness :
  (sample_temps ≠ [] ->
     time_options (uniform_frame sample_hour_strings sample_temps)
     = sample_hour_strings) /\
  (fun r => City (base r))
    <$> snapshot (uniform_frame sample_hour_strings sample_temps) "2024-01-01T01:00"
    = take (length sample_temps) city_names /\
  Forall2 (fun r temps =>
             Time (base r) = "2024-01-01T01:00" /\
             temps !! 1 = Some (Temperature (base r)))
    (snapshot (uniform_frame sample_hour_strings sample_temps) "2024-01-01T01:00")
    sample_temps.
Proof.
  apply (uniform_frame_snapshot sample_hour_strings sample_temps 1
           "2024-01-01T01:00").
  - apply (bool_decide_unpack _). vm_compute. reflexivity.
  - reflexivity.
  - vm_compute. lia.
  - repeat constructor.
Defined.

(** X9. End to end: for a response with a status that is no error, in which
    each of one to thirteen points reports the same non-empty list of
    distinct hours (strings) with one float temperature per hour, the fetch
    reports nothing and the page shows the map: the slider offers the hours
    in the order of the response, starts at the current hour when the
    response has it and at the first hour otherwise, and the layer gets the
    snapshot of the frame of the response at the timestamp the slider
    returns. *)
Theorem script_uniform status data_list (hours : list string)
    (temps_list : list (list float)) now select_slider :
  ~ (400 <= status < 600)%Z ->
  length data_list <= length cities ->
  data_list ≠ [] ->
  NoDup hours ->
  Forall2 (fun cd temps => point_payload cd = Some (json_payload (hours, temps)))
    data_list temps_list ->
  Forall (fun temps => length temps = length hours) temps_list ->
  hours ≠ [] ->
  exists value,
    script (Reply status (Some (JArr data_list))) now select_slider =
    Some ([], Ok (MapView hours value (select_slider hours value)
                    (snapshot (uniform_frame hours temps_list)
                       (select_slider hours value)))) /\
    value ∈ hours /\
    (current_hour_iso now ∈ hours -> value = current_hour_iso now) /\
    ((current_hour_iso now ∉ hours) -> head hours = Some value).
Proof.
  intros Hs Hlen Hne Hnd Hall Hlens Hhours.
  assert (length temps_list = length data_list) as Hl
    by (symmetry; by eapply Forall2_length).
  assert (temps_list ≠ []) as Hne' by (destruct temps_list, data_list; done).
  destruct (fetch_typed_frame status data_list (pair hours <$> temps_list) Hs Hlen)
    as [Hev Hfr]; [by apply Forall2_fmap_r|].
  rewrite imap_fmap in Hfr.
  change (typed_frame (fetch_forecast_data (Reply status (Some (JArr data_list)))).1
          = Some (uniform_frame hours temps_list)) in Hfr.
  pose proof (uniform_frame_time_options hours temps_list Hnd Hne') as Hopts.
  rewrite Hl in Hopts. specialize (Hopts Hlen Hlens).
  assert (uniform_frame hours temps_list ≠ []) as Hrows.
  { intros Hnil. rewrite Hnil in Hopts. by destruct hours. }
  destruct (page_body_rows (uniform_frame hours temps_list) now select_slider Hrows)
    as (value & Hpage & Hin & Hcur & Hfirst).
  rewrite Hopts in Hpage, Hin, Hcur, Hfirst.
  exists value. unfold script. rewrite Hfr, Hev. cbn. rewrite Hpage.
  split; [done|]. split; [done|]. split; [done|].
  intros Hout. rewrite <- (Hfirst Hout).
  transitivity (head (time_options (uniform_frame hours temps_list)));
    [by rewrite Hopts | apply head_unique].
Qed.

Lemma script_uniform_witness :
  exists value,
    script sample_reply sample_now slider_untouched =
    Some ([], Ok (MapView sample_hour_strings value
                    (slider_untouched sample_hour_strings value)
                    (snapshot (uniform_frame sample_hour_strings sample_temps)
                       (slider_untouched sample_hour_strings value)))) /\
    value ∈ sample_hour_strings /\
    (current_hour_iso sample_now ∈ sample_hour_strings ->
       value = current_hour_iso sample_now) /\
    ((current_hour_iso sample_now ∉ sample_hour_strings) ->
       head sample_hour_strings = Some value).
Proof.
  apply (script_uniform 200 _ sample_hour_strings sample_temps sample_now
           slider_untouched).
  - lia.
  - vm_compute. lia.
  - discriminate.
  - apply (bool_decide_unpack _). vm_compute. reflexivity.
  - repeat constructor.
  - repeat constructor.
  - discriminate.
Defined.

End Uniform.

(** ** Signs and the colour scale *)

Module FloatSign.
Import Float.
Local Open Scope Z_scope.

Lemma iter_pos_invariant {A} (P : A -> Prop) (f : A -> A) :
  (forall x, P x -> P (f x)) -> forall p x, P x -> P (SpecFloat.iter_pos f p x).
Proof.
  intros Hf. induction p as [p IH | p IH |]; intros x Hx;
    cbn [SpecFloat.iter_pos]; auto.
Qed.

Lemma shr_1_nonneg mrs : 0 <= shr_m mrs -> 0 <= shr_m (shr_1 mrs).
Proof.
  destruct mrs as [m r s]. cbn [shr_m]. intros Hm.
  destruct m as [| [p | p |] | p]; cbn; lia.
Qed.

Lemma shr_nonneg mrs e n : 0 <= shr_m mrs -> 0 <= shr_m (shr mrs e n).1.
Proof.
  intros Hm. destruct n as [| p | p]; cbn [shr fst]; try done.
  by apply (iter_pos_invariant (fun x => 0 <= shr_m x)), Hm; apply shr_1_nonneg.
Qed.

Lemma shr_fexp_nonneg m e l : 0 <= m -> 0 <= shr_m (shr_fexp prec emax m e l).1.
Proof.
  intros Hm. unfold shr_fexp. apply shr_nonneg.
  destruct l as [| []]; exact Hm.
Qed.

Lemma round_nearest_even_nonneg m l : 0 <= m -> 0 <= round_nearest_even m l.
Proof.
  intros Hm. unfold round_nearest_even.
  destruct l as [| []]; try destruct (Z.even m); lia.
Qed.

(** Rounding a non-negative mantissa keeps the sign it is given and never
    yields a NaN. *)
Lemma binary_round_aux_sign sx mx ex lx :
  0 <= mx -> sign_of (binary_round_aux prec emax sx mx ex lx) = Some sx.
Proof.
  intros Hm. unfold binary_round_aux.
  pose proof (shr_fexp_nonneg mx ex lx Hm) as H1.
  destruct (shr_fexp prec emax mx ex lx) as [mrs' e']. cbn [fst] in H1.
  pose proof (shr_fexp_nonneg
                (round_nearest_even (shr_m mrs') (loc_of_shr_record mrs')) e'
                loc_Exact (round_nearest_even_nonneg _ _ H1)) as H2.
  destruct (shr_fexp prec emax _ e' loc_Exact) as [mrs'' e'']. cbn [fst] in H2.
  destruct (shr_m mrs'') as [| m | m]; [done | | lia].
  by destruct (e'' <=? emax - prec).
Qed.

Lemma binary_round_sign sx mx ex :
  sign_of (binary_round prec emax sx mx ex) = Some sx.
Proof.
  unfold binary_round. destruct (shl_align mx ex _) as [mz ez].
  by apply binary_round_aux_sign.
Qed.

Lemma binary_normalize_sign m e :
  sign_of (binary_normalize prec emax m e false) = Some (m <? 0).
Proof.
  destruct m as [| p | p]; cbn [binary_normalize]; [done | |];
    apply binary_round_sign.
Qed.

(** Multiplying by a positive finite factor keeps the sign. *)
Lemma mul_sign s x my ey :
  sign_of x = Some s -> sign_of (mul x (S754_finite false my ey)) = Some s.
Proof.
  unfold mul. destruct x as [s' | s' | | s' mx ex]; cbn [sign_of SFmul];
    try done; intros [= ->]; rewrite ?xorb_false_r; try done.
  by apply binary_round_aux_sign.
Qed.

Lemma pos_iter_xO m d : Z.pos (Pos.iter xO m d) = Z.pos m * 2 ^ Z.pos d.
Proof.
  induction d as [| d IH] using Pos.peano_ind.
  - cbn. lia.
  - rewrite Pos.iter_succ, Pos2Z.inj_succ, Z.pow_succ_r by lia.
    rewrite Pos2Z.inj_xO, IH. lia.
Qed.

(** Aligning a mantissa to a lower exponent multiplies it by the power of
    two in between. *)
Lemma shl_align_fst m e e' :
  e' <= e -> Z.pos (shl_align m e e').1 = Z.pos m * 2 ^ (e - e').
Proof.
  intros He. unfold shl_align.
  destruct (e' - e) as [| d | d] eqn:E; cbn [fst].
  - replace (e - e') with 0 by lia. lia.
  - lia.
  - rewrite pos_iter_xO. f_equal. f_equal. lia.
Qed.

(** [t + 20] is negative exactly when [t < -20], and is never a NaN. *)
Lemma add_20_sign t :
  valid t = true -> is_finite t = true ->
  sign_of (add t (of_int 20)) = Some (ltb t (of_int (-20))).
Proof.
  intros Vt Ft.
  assert (of_int 20 = S754_finite false 5629499534213120 (-48)) as -> by reflexivity.
  destruct t as [s | s | | s m e]; try discriminate.
  - by destruct s.
  - pose proof (FloatFacts.ltb_scaled (S754_finite s m e) (of_int (-20)) Vt
                  eq_refl Ft eq_refl) as Hlt.
    assert (of_int (-20) = S754_finite true 5629499534213120 (-48)) as E20
      by reflexivity.
    rewrite E20 in Hlt |- *. cbn [scaled] in Hlt.
    apply FloatFacts.bounded_range in Vt as (He & _ & _).
    unfold add. cbn [SFadd]. set (ez := Z.min e (-48)).
    set (sum := cond_Zopp s (Z.pos (shl_align m e ez).1) +
                cond_Zopp false (Z.pos (shl_align 5629499534213120 (-48) ez).1)).
    assert ((sum <? 0) = ltb (S754_finite s m e) (S754_finite true 5629499534213120 (-48)))
      as <-; [| apply binary_normalize_sign].
    subst sum. rewrite !shl_align_fst by (subst ez; lia). cbn [cond_Zopp].
    assert (0 < 2 ^ (ez + 1074)) as HK by (apply Z.pow_pos_nonneg; subst ez; lia).
    assert (2 ^ (e + 1074) = 2 ^ (e - ez) * 2 ^ (ez + 1074)) as He1.
    { rewrite <- Z.pow_add_r by (subst ez; lia). f_equal. lia. }
    assert (2 ^ (-48 + 1074) = 2 ^ (-48 - ez) * 2 ^ (ez + 1074)) as He2.
    { rewrite <- Z.pow_add_r by (subst ez; lia). f_equal. lia. }
    rewrite He1, He2 in Hlt.
    assert (0 <= 2 ^ (e - ez)) by (apply Z.pow_nonneg; lia).
    assert (0 <= 2 ^ (-48 - ez)) by (apply Z.pow_nonneg; lia).
    set (A := 2 ^ (e - ez)) in *. set (B := 2 ^ (-48 - ez)) in *.
    set (K := 2 ^ (ez + 1074)) in *.
    rewrite !Z.mul_assoc, <- Z.mul_lt_mono_pos_r in Hlt by exact HK.
    change (Z.neg 5629499534213120) with (- 5629499534213120) in Hlt.
    assert (0 <= Z.pos m * A) as HmA by (apply Z.mul_nonneg_nonneg; lia).
    destruct (ltb _ _).
    + pose proof (proj1 Hlt eq_refl) as Hc. apply Z.ltb_lt.
      destruct s; cbn [cond_Zopp]; cbn iota in Hc;
        [change (Z.neg m) with (- Z.pos m) in Hc |]; lia.
    + apply Z.ltb_ge. destruct s; cbn [cond_Zopp]; [|lia].
      cbn iota in Hlt. change (Z.neg m) with (- Z.pos m) in Hlt.
      destruct (Z.lt_ge_cases (- (Z.pos m * A) + 5629499534213120 * B) 0)
        as [Hn|]; [|done].
      assert (- Z.pos m * A < - 5629499534213120 * B) as Hc by lia.
      apply Hlt in Hc. discriminate.
Qed.

Lemma elevation_sign t :
  valid t = true -> is_finite t = true ->
  sign_of (mul (add t (of_int 20)) (of_int 2000)) = Some (ltb t (of_int (-20))).
Proof.
  intros Vt Ft.
  assert (of_int 2000 = S754_finite false 8796093022208000 (-42)) as -> by reflexivity.
  apply mul_sign, add_20_sign; assumption.
Qed.

(** A float with a clear sign bit is not below zero, one with the sign bit
    set is not above. *)
Lemma sign_of_ltb x s :
  sign_of x = Some s ->
  if s then ltb (of_int 0) x = false else ltb x (of_int 0) = false.
Proof.
  destruct x as [[] | [] | | [] m e]; intros [= <-]; reflexivity.
Qed.

End FloatSign.

Section Scale.
Import Float.

(** X10. For every row with a valid finite temperature [t], the elevation is
    never a NaN and its sign bit is set exactly when [t < -20]: from -20
    degrees up the column is not below the ground plane (the offset of 20
    covers those temperatures), below -20 degrees it is not above it. *)
Theorem elevation_floor (df : list ForecastRecord) :
  Forall (fun r => valid (Temperature r) = true /\ is_finite (Temperature r) = true) df ->
  Forall (fun r =>
            sign_of (elevation r)
              = Some (ltb (Temperature (base r)) (of_int (-20))) /\
            (ltb (Temperature (base r)) (of_int (-20)) = false ->
               ltb (elevation r) (of_int 0) = false) /\
            (ltb (Temperature (base r)) (of_int (-20)) = true ->
               ltb (of_int 0) (elevation r) = false))
         (encode df).
Proof.
  intros Hdf. rewrite encode_map, Forall_fmap.
  eapply Forall_impl; [exact Hdf|]. intros r [Vt Ft]. unfold compose. cbn [base elevation].
  pose proof (FloatSign.elevation_sign (Temperature r) Vt Ft) as Hs.
  split; [exact Hs|].
  split; intros Hlt; rewrite Hlt in Hs;
    exact (FloatSign.sign_of_ltb _ _ Hs).
Qed.

Lemma elevation_floor_witness :
  Forall (fun r =>
            sign_of (elevation r)
              = Some (ltb (Temperature (base r)) (of_int (-20))) /\
            (ltb (Temperature (base r)) (of_int (-20)) = false ->
               ltb (elevation r) (of_int 0) = false) /\
            (ltb (Temperature (base r)) (of_int (-20)) = true ->
               ltb (of_int 0) (elevation r) = false))
         (encode (uniform_frame sample_hour_strings sample_temps)).
Proof.
  apply (elevation_floor (uniform_frame sample_hour_strings sample_temps)).
  vm_compute. repeat constructor.
Defined.

(** The rank of the colour of a valid finite temperature, read off its
    value. *)
Lemma warmth_get_color t :
  is_finite t = true -> valid t = true ->
  ((to_Q t < 0)%Q -> warmth (get_color t) = 0) /\
  ((0 <= to_Q t)%Q -> (to_Q t < 10)%Q -> warmth (get_color t) = 1) /\
  ((10 <= to_Q t)%Q -> (to_Q t < 20)%Q -> warmth (get_color t) = 2) /\
  ((20 <= to_Q t)%Q -> (to_Q t < 25)%Q -> warmth (get_color t) = 3) /\
  ((25 <= to_Q t)%Q -> warmth (get_color t) = 4).
Proof.
  intros Ft Vt.
  destruct (ltb_of_int t 0 Ft Vt) as [H0 H0']; [reflexivity .. |].
  destruct (ltb_of_int t 10 Ft Vt) as [H10 H10']; [reflexivity .. |].
  destruct (ltb_of_int t 20 Ft Vt) as [H20 H20']; [reflexivity .. |].
  destruct (ltb_of_int t 25 Ft Vt) as [H25 H25']; [reflexivity .. |].
  change (inject_Z 0) with 0%Q in *. change (inject_Z 10) with 10%Q in *.
  change (inject_Z 20) with 20%Q in *. change (inject_Z 25) with 25%Q in *.
  unfold get_color.
  destruct (ltb t (of_int 0));
    [pose proof (proj1 H0 eq_refl) as E0 | pose proof (proj1 H0' eq_refl) as E0;
     destruct (ltb t (of_int 10));
     [pose proof (proj1 H10 eq_refl) as E10 | pose proof (proj1 H10' eq_refl) as E10;
      destruct (ltb t (of_int 20));
      [pose proof (proj1 H20 eq_refl) as E20 | pose proof (proj1 H20' eq_refl) as E20;
       destruct (ltb t (of_int 25));
       [pose proof (proj1 H25 eq_refl) as E25 | pose proof (proj1 H25' eq_refl) as E25]]]];
    clear H0 H0' H10 H10' H20 H20' H25 H25';
    repeat split; intros; first [reflexivity | exfalso; lra].
Qed.

(** X11. The colour scale is monotone: for valid finite temperatures with
    [t1 <= t2] (that is, not [t2 < t1]), the colour of [t1] is not warmer
    than the colour of [t2] on the scale blue, cyan, green, orange, red. *)
Theorem get_color_monotone (t1 t2 : float) :
  is_finite t1 = true -> valid t1 = true ->
  is_finite t2 = true -> valid t2 = true ->
  ltb t2 t1 = false ->
  warmth (get_color t1) <= warmth (get_color t2).
Proof.
  intros F1 V1 F2 V2 Hle.
  assert (to_Q t1 <= to_Q t2)%Q as Hq.
  { apply Qnot_lt_le. intros Hlt.
    apply (FloatFacts.ltb_spec t2 t1 V2 V1 F2 F1) in Hlt. congruence. }
  destruct (warmth_get_color t1 F1 V1) as (A0 & A1 & A2 & A3 & A4).
  destruct (warmth_get_color t2 F2 V2) as (B0 & B1 & B2 & B3 & B4).
  destruct (Qlt_le_dec (to_Q t1) 0) as [a0|a0];
    [rewrite (A0 a0); lia|].
  destruct (Qlt_le_dec (to_Q t1) 10) as [a1|a1];
    [rewrite (A1 a0 a1) |
     destruct (Qlt_le_dec (to_Q t1) 20) as [a2|a2];
     [rewrite (A2 a1 a2) |
      destruct (Qlt_le_dec (to_Q t1) 25) as [a3|a3];
      [rewrite (A3 a2 a3) | rewrite (A4 a3)]]];
    (destruct (Qlt_le_dec (to_Q t2) 0) as [b0|b0]; [exfalso; lra|];
     destruct (Qlt_le_dec (to_Q t2) 10) as [b1|b1];
     [first [rewrite (B1 b0 b1); lia | exfalso; lra] |
      destruct (Qlt_le_dec (to_Q t2) 20) as [b2|b2];
      [first [rewrite (B2 b1 b2); lia | exfalso; lra] |
       destruct (Qlt_le_dec (to_Q t2) 25) as [b3|b3];
       [first [rewrite (B3 b2 b3); lia | exfalso; lra] |
        rewrite (B4 b3); lia]]]).
Qed.

Lemma get_color_monotone_witness :
  warmth (get_color (of_decimal 9999 1000))
  <= warmth (get_color (of_decimal 24999 1000)).
Proof.
  apply (get_color_monotone (of_decimal 9999 1000) (of_decimal 24999 1000));
    vm_compute; reflexivity.
Defined.

Lemma elem_of_Z_range lo n k :
  (lo <= k < lo + Z.of_nat n)%Z -> k ∈ Z_range lo n.
Proof.
  intros Hk. unfold Z_range. apply list_elem_of_fmap.
  exists (Z.to_nat (k - lo)). split; [lia|].
  apply elem_of_seq. lia.
Qed.

Lemma elevation_integers_checked :
  forallb (fun k => bool_decide
             (mul (add (of_int k) (of_int 20)) (of_int 2000)
              = of_int ((k + 20) * 2000)))
          (Z_range (-1000) 2001) = true.
Proof. vm_compute. reflexivity. Qed.

(** X12. For a whole-number temperature [k] between -1000 and 1000 degrees
    the elevation is the float of the integer [(k + 20) * 2000]: no rounding
    occurs (checked on each of the 2001 temperatures). *)
Theorem elevation_exact_on_integers (df : list ForecastRecord) (k : Z) :
  (-1000 <= k <= 1000)%Z ->
  Forall (fun r => Temperature (base r) = of_int k ->
                   elevation r = of_int ((k + 20) * 2000))
         (encode df).
Proof.
  intros Hk. rewrite encode_map, Forall_fmap.
  apply Forall_forall. intros r _. unfold compose. cbn [base elevation]. intros ->.
  pose proof elevation_integers_checked as Hall.
  rewrite forallb_forall in Hall.
  specialize (Hall k). rewrite <- list_elem_of_In in Hall.
  eapply bool_decide_eq_true_1, Hall, elem_of_Z_range. lia.
Qed.

Lemma elevation_exact_on_integers_witness :
  Forall (fun r => Temperature (base r) = of_int 25 ->
                   elevation r = of_int ((25 + 20) * 2000))
         (encode (uniform_frame sample_hour_strings sample_temps)).
Proof.
  apply (elevation_exact_on_integers
           (uniform_frame sample_hour_strings sample_temps) 25).
  lia.
Defined.

End Scale.

(** ** The format of the current hour *)

Section Clock.









End Clock.
